(** * Video-Translation-Simulator: the polling client (pkg/client/client.go)

    A shallow embedding of the client library that sits between a caller
    and the translation server.  [Client.HandleStatusRequest] is the HTTP
    handler; it keeps the last known status of the job, decides between
    answering from that cache and asking the server, and spaces the
    requests to the server with exponential backoff and jitter
    ([Client.nextDelay]).

    Go values are modelled as follows.
    - [int] (taken 64 bits wide), [int64] and [time.Duration] are [Z]
      with the 64-bit wrap-around written out ([wrap64]); a [Duration]
      counts nanoseconds.
    - A [time.Time] is an instant in nanoseconds on the monotonic clock;
      [time.Time{}] is instant 0, [Before] is [<], [Add] is [+].
    - The receiver [c *Client] is mutated in place: the handler is a
      computation over the client and the outside world ([World]): the
      clock read by [time.Now], the answers of the server, the random
      source of [math/rand], the log and the responses written.
    - Two operations suspend the goroutine that runs the handler:
      [c.mu.Lock()] and the HTTP exchange with the server.  A computation
      stops there with its continuation ([Locking], [Fetching]), so that
      the same handler can be run alone ([exec]) or interleaved with other
      goroutines ([step]). *)

From stdpp Require Import base numbers list strings.

Local Open Scope string_scope.
Local Open Scope list_scope.
Local Open Scope Z_scope.

(** ** Machine integers, durations, instants *)

Definition wrap64 (z : Z) : Z := (z + 2 ^ 63) `mod` 2 ^ 64 - 2 ^ 63.

Definition Duration := Z.
Definition Time := Z.

Definition Nanosecond : Duration := 1.
Definition Millisecond : Duration := 1000000 * Nanosecond.
Definition Second : Duration := 1000 * Millisecond.

(** [time.Time{}] *)
Definition zeroTime : Time := 0.

(** ** Data *)

(** [*log.Logger], as built by [log.New(out, prefix, flags)]. *)
Record log_Logger := mkLogger { prefix : string; flags : Z }.

(** The [error] values [RetrieveStatus] can return. *)
Inductive error :=
| errNewRequest   (* http.NewRequest rejected the URL *)
| errTransport    (* httpClient.Do failed *)
| errDeadline     (* httpClient.Do: context deadline exceeded *)
| errNon200       (* "received non-200 response from server" *)
| errDecode.      (* json Decode failed *)

(** What the server's body decodes to, into [struct { Result string }]. *)
Inductive Payload :=
| Undecodable
| Decoded (result : string).

(** What one call of [httpClient.Do] on [GET BaseURL/status] yields. *)
Inductive Exchange :=
| TransportError
| DeadlineExceeded
| Reply (code : Z) (body : Payload).

(** What the handler writes to its [http.ResponseWriter]. *)
Inductive Response :=
| JsonResult (code : Z) (result : string)   (* respondWithStatus *)
| PlainText (code : Z) (message : string).  (* http.Error *)

(** The lines the handler logs. *)
Inductive LogEvent :=
| LogStarting
| LogNextRequestIn (d : Duration)
| LogAttemptError (attempt : Z) (e : error)
| LogMaxRetries
| LogReceived (attempt : Z) (status : string)
| LogNextAttempt (d : Duration)
| LogBackoff (half jitter total : Duration).

(** [type Client struct].  [mu] is the [sync.Mutex]: [true] when locked.
    [httpClient] is [&http.Client{}], which has no setting of its own. *)
Record Client := mkClient {
  BaseURL : string;
  Logger : log_Logger;
  httpClient : unit;
  mu : bool;
  status : string;
  attempt : Z;
  delay : Duration;
  maxDelay : Duration;
  maxRetries : Z;
  lastRequest : Time;
  nextRequest : Time;
  initialDelay : Duration;
  pending : bool;
  timeout : Duration
}.

Definition set_mu (v : bool) (c : Client) : Client :=
  mkClient (BaseURL c) (Logger c) (httpClient c) v (status c) (attempt c)
    (delay c) (maxDelay c) (maxRetries c) (lastRequest c) (nextRequest c)
    (initialDelay c) (pending c) (timeout c).

Definition set_status (v : string) (c : Client) : Client :=
  mkClient (BaseURL c) (Logger c) (httpClient c) (mu c) v (attempt c)
    (delay c) (maxDelay c) (maxRetries c) (lastRequest c) (nextRequest c)
    (initialDelay c) (pending c) (timeout c).

Definition set_attempt (v : Z) (c : Client) : Client :=
  mkClient (BaseURL c) (Logger c) (httpClient c) (mu c) (status c) v
    (delay c) (maxDelay c) (maxRetries c) (lastRequest c) (nextRequest c)
    (initialDelay c) (pending c) (timeout c).

Definition set_delay (v : Duration) (c : Client) : Client :=
  mkClient (BaseURL c) (Logger c) (httpClient c) (mu c) (status c) (attempt c)
    v (maxDelay c) (maxRetries c) (lastRequest c) (nextRequest c)
    (initialDelay c) (pending c) (timeout c).

Definition set_lastRequest (v : Time) (c : Client) : Client :=
  mkClient (BaseURL c) (Logger c) (httpClient c) (mu c) (status c) (attempt c)
    (delay c) (maxDelay c) (maxRetries c) v (nextRequest c)
    (initialDelay c) (pending c) (timeout c).

Definition set_nextRequest (v : Time) (c : Client) : Client :=
  mkClient (BaseURL c) (Logger c) (httpClient c) (mu c) (status c) (attempt c)
    (delay c) (maxDelay c) (maxRetries c) (lastRequest c) v
    (initialDelay c) (pending c) (timeout c).

Definition set_pending (v : bool) (c : Client) : Client :=
  mkClient (BaseURL c) (Logger c) (httpClient c) (mu c) (status c) (attempt c)
    (delay c) (maxDelay c) (maxRetries c) (lastRequest c) (nextRequest c)
    (initialDelay c) v (timeout c).

(** The world outside the client.  [clock], [upstream] and [entropy] are
    what the i-th call of [time.Now], of [httpClient.Do] and of the random
    source return; [ticks], [fetches] and [draws] count the calls made so
    far.  [urlParses] is the URL check of [http.NewRequest]. *)
Record World := mkWorld {
  clock : nat -> Time;
  ticks : nat;
  upstream : nat -> Exchange;
  fetches : nat;
  entropy : nat -> Z;
  draws : nat;
  urlParses : string -> bool;
  logged : list LogEvent;
  written : list Response
}.

Definition tick (w : World) : World :=
  mkWorld (clock w) (S (ticks w)) (upstream w) (fetches w) (entropy w)
    (draws w) (urlParses w) (logged w) (written w).

Definition fetched (w : World) : World :=
  mkWorld (clock w) (ticks w) (upstream w) (S (fetches w)) (entropy w)
    (draws w) (urlParses w) (logged w) (written w).

Definition drawn (w : World) : World :=
  mkWorld (clock w) (ticks w) (upstream w) (fetches w) (entropy w)
    (S (draws w)) (urlParses w) (logged w) (written w).

Definition log (e : LogEvent) (w : World) : World :=
  mkWorld (clock w) (ticks w) (upstream w) (fetches w) (entropy w)
    (draws w) (urlParses w) (logged w ++ [e]) (written w).

Definition write (r : Response) (w : World) : World :=
  mkWorld (clock w) (ticks w) (upstream w) (fetches w) (entropy w)
    (draws w) (urlParses w) (logged w) (written w ++ [r]).

(** ** Computations *)

(** A computation runs until it returns, panics, or reaches one of the
    two points where the goroutine waits. *)
Inductive Outcome (A : Type) :=
| Done (a : A) (c : Client) (w : World)
| Panicked (c : Client) (w : World)
| Locking (c : Client) (w : World) (k : Client -> World -> Outcome A)
| Fetching (c : Client) (w : World)
    (k : Exchange -> Client -> World -> Outcome A).

Arguments Done {A} a c w.
Arguments Panicked {A} c w.
Arguments Locking {A} c w k.
Arguments Fetching {A} c w k.

Definition M (A : Type) : Type := Client -> World -> Outcome A.

Fixpoint bindO {A B} (o : Outcome A) (f : A -> M B) : Outcome B :=
  match o with
  | Done a c w => f a c w
  | Panicked c w => Panicked c w
  | Locking c w k => Locking c w (fun c' w' => bindO (k c' w') f)
  | Fetching c w k => Fetching c w (fun x c' w' => bindO (k x c' w') f)
  end.

#[global] Instance M_ret : MRet M := fun A a c w => Done a c w.
#[global] Instance M_bind : MBind M := fun A B f m c w => bindO (m c w) f.

(** [defer cleanup; body]: the deferred call runs when the body returns
    and when it panics; a panic goes on after it. *)
Fixpoint deferO {A} (cleanup : M unit) (o : Outcome A) : Outcome A :=
  match o with
  | Done a c w => bindO (cleanup c w) (fun _ => mret a)
  | Panicked c w => bindO (cleanup c w) (fun _ c' w' => Panicked c' w')
  | Locking c w k => Locking c w (fun c' w' => deferO cleanup (k c' w'))
  | Fetching c w k => Fetching c w (fun x c' w' => deferO cleanup (k x c' w'))
  end.

Definition defer {A} (cleanup : M unit) (body : M A) : M A :=
  fun c w => deferO cleanup (body c w).

Definition gets {A} (f : Client -> A) : M A := fun c w => Done (f c) c w.
Definition modify (f : Client -> Client) : M unit := fun c w => Done tt (f c) w.

(** [time.Now()] *)
Definition time_Now : M Time :=
  fun c w => Done (clock w (ticks w)) c (tick w).

(** [rand.Int63n(n)]: panics unless [0 < n]; otherwise the value it
    accepted from the source, reduced modulo [n]. *)
Definition rand_Int63n (n : Z) : M Z :=
  fun c w =>
    if n <=? 0 then Panicked c w
    else Done (entropy w (draws w) `mod` n) c (drawn w).

(** [c.Logger.Printf] and [c.Logger.Println] *)
Definition Printf (e : LogEvent) : M unit := fun c w => Done tt c (log e w).

(** [http.NewRequest]: fails when the URL does not parse. *)
Definition http_NewRequest (url : string) : M bool :=
  fun c w => Done (urlParses w url) c w.

(** [c.httpClient.Do(req)], under the context's timeout. *)
Definition httpClient_Do : M Exchange :=
  fun c w => Fetching c w (fun x c' w' => Done x c' w').

(** [c.mu.Lock()]: waits until the mutex is free, then takes it. *)
Definition mu_Lock : M unit :=
  fun c w => Locking c w (fun c' w' => Done tt (set_mu true c') w').

(** [c.mu.Unlock()]: a run-time error on a mutex that is not locked. *)
Definition mu_Unlock : M unit :=
  fun c w => if mu c then Done tt (set_mu false c) w else Panicked c w.

(** ** Running one goroutine alone *)

Inductive Result (A : Type) :=
| Ok (a : A) (c : Client) (w : World)
| Panic (c : Client) (w : World)
| Deadlock (c : Client) (w : World).

Arguments Ok {A} a c w.
Arguments Panic {A} c w.
Arguments Deadlock {A} c w.

(** Nobody else holds the mutex, and the server answers with the next
    exchange of [upstream]. *)
Fixpoint run {A} (o : Outcome A) : Result A :=
  match o with
  | Done a c w => Ok a c w
  | Panicked c w => Panic c w
  | Locking c w k => if mu c then Deadlock c w else run (k c w)
  | Fetching c w k => run (k (upstream w (fetches w)) c (fetched w))
  end.

Definition exec {A} (m : M A) (c : Client) (w : World) : Result A :=
  run (m c w).

(** ** The client *)

(** [NewClient] *)
Definition NewClient (baseURL : string) (logger : log_Logger) : Client :=
  {| BaseURL := baseURL;
     Logger := logger;
     httpClient := tt;
     mu := false;
     initialDelay := 500 * Millisecond;
     maxDelay := 10 * Second;
     maxRetries := 20;
     status := "";
     attempt := 0;
     delay := 0;
     lastRequest := zeroTime;
     nextRequest := zeroTime;
     pending := false;
     timeout := 5 * Second |}.

(** [respondWithStatus] *)
Definition respondWithStatus (status : string) : M unit :=
  fun c w => Done tt c (write (JsonResult 200 status) w).

(** [respondWithError] *)
Definition respondWithError (message : string) : M unit :=
  fun c w => Done tt c (write (PlainText 500 message) w).

(** The first half of [nextDelay]: double the delay (or start from
    [initialDelay]) and cap it at [maxDelay]. *)
Definition cappedDelay (initial maxD currentDelay : Duration) : Duration :=
  let currentDelay :=
    if currentDelay =? 0 then initial else wrap64 (currentDelay * 2) in
  if currentDelay >? maxD then maxD else currentDelay.

(** [nextDelay] *)
Definition nextDelay (currentDelay : Duration) : M Duration :=
  initial ← gets initialDelay;
  maxD ← gets maxDelay;
  let currentDelay := cappedDelay initial maxD currentDelay in
  jitter ← rand_Int63n (currentDelay `quot` 2);
  let totalDelay := wrap64 (currentDelay `quot` 2 + jitter) in
  Printf (LogBackoff (currentDelay `quot` 2) jitter totalDelay) ;;
  mret totalDelay.

(** [RetrieveStatus] *)
Definition RetrieveStatus : M (string * option error) :=
  base ← gets BaseURL;
  ok ← http_NewRequest (base +:+ "/status");
  if negb ok then mret ("", Some errNewRequest)
  else
    x ← httpClient_Do;
    match x with
    | TransportError => mret ("", Some errTransport)
    | DeadlineExceeded => mret ("", Some errDeadline)
    | Reply code body =>
        if negb (code =? 200) then mret ("", Some errNon200)
        else
          match body with
          | Undecodable => mret ("", Some errDecode)
          | Decoded result => mret (result, None)
          end
    end.

(** Lines 92-101 of [HandleStatusRequest]: when no sequence is active,
    start one. *)
Definition startSequence : M unit :=
  p ← gets pending;
  if negb p then
    Printf LogStarting ;;
    modify (set_pending true) ;;
    modify (set_status "pending") ;;
    modify (set_attempt 0) ;;
    d ← gets initialDelay;
    modify (set_delay d) ;;
    modify (set_lastRequest zeroTime) ;;
    t ← time_Now;
    modify (set_nextRequest t)
  else mret tt.

(** Lines 112-135: one request to the server.  The result says whether
    the handler has returned (the [return] after "Max retries reached"). *)
Definition requestServer : M bool :=
  a ← gets attempt;
  modify (set_attempt (wrap64 (a + 1))) ;;
  r ← RetrieveStatus;
  a ← gets attempt;
  match r.2 with
  | Some e =>
      Printf (LogAttemptError a e) ;;
      maxR ← gets maxRetries;
      if maxR <=? a then
        Printf LogMaxRetries ;;
        respondWithError "Max retries reached" ;;
        modify (set_pending false) ;;
        mret true
      else mret false
  | None =>
      Printf (LogReceived a r.1) ;;
      modify (set_status r.1) ;;
      (if String.eqb r.1 "pending" then
         d ← gets delay;
         d' ← nextDelay d;
         modify (set_delay d') ;;
         t ← time_Now;
         modify (set_nextRequest (t + d')) ;;
         Printf (LogNextAttempt d')
       else modify (set_pending false)) ;;
      mret false
  end.

(** [HandleStatusRequest] *)
Definition HandleStatusRequest : M unit :=
  mu_Lock ;;
  defer mu_Unlock (
    startSequence ;;
    now ← time_Now;
    next ← gets nextRequest;
    if now <? next then
      Printf (LogNextRequestIn (next - now)) ;;
      s ← gets status;
      respondWithStatus s
    else
      returned ← requestServer;
      if returned : bool then mret tt
      else
        t ← time_Now;
        modify (set_lastRequest t) ;;
        s ← gets status;
        respondWithStatus s).

(** A caller that polls [n] times, one request after the other; the
    result lists the client as each request left it. *)
Fixpoint polls (n : nat) : M (list Client) :=
  match n with
  | O => mret []
  | S n =>
      HandleStatusRequest ;;
      c ← gets id;
      cs ← polls n;
      mret (c :: cs)
  end.

(** ** Vocabulary of the properties *)

(** The request to the server fails: [RetrieveStatus] returns an error
    for a URL that does not parse, a transport error, a timeout, a
    non-200 reply and a body that does not decode. *)
Definition failedFetch (c : Client) (w : World) : Prop :=
  urlParses w (BaseURL c +:+ "/status") = false \/
  match upstream w (fetches w) with
  | TransportError | DeadlineExceeded => True
  | Reply code body => code <> 200 \/ body = Undecodable
  end.

(** The request to the server yields the status [s]: a 200 reply whose
    body decodes, with [s] in its result field. *)
Definition fetchYields (s : string) (c : Client) (w : World) : Prop :=
  urlParses w (BaseURL c +:+ "/status") = true /\
  upstream w (fetches w) = Reply 200 (Decoded s).

(** The world once [RetrieveStatus] has been called at [w], the instant
    having been read: the exchange took place if the URL parsed. *)
Definition afterFetch (c : Client) (w : World) : World :=
  if urlParses w (BaseURL c +:+ "/status") then fetched (tick w) else tick w.

(** [chain R a l]: [R] relates [a] to the head of [l] and each element of
    [l] to the next. *)
Fixpoint chain {A} (R : A -> A -> Prop) (a : A) (l : list A) : Prop :=
  match l with
  | [] => True
  | b :: l' => R a b /\ chain R b l'
  end.

(** The server answers every request with 200 and "pending". *)
Definition serverPending (c : Client) (w : World) : Prop :=
  urlParses w (BaseURL c +:+ "/status") = true /\
  forall i, upstream w i = Reply 200 (Decoded "pending").

(** Every exchange with the server fails. *)
Definition serverDown (w : World) : Prop :=
  forall i,
    match upstream w i with
    | TransportError | DeadlineExceeded => True
    | Reply code body => code <> 200 \/ body = Undecodable
    end.

(** The configuration [NewClient] sets. *)
Definition defaultConfig (c : Client) : Prop :=
  initialDelay c = 500 * Millisecond /\ maxDelay c = 10 * Second /\
  maxRetries c = 20 /\ timeout c = 5 * Second.

(** The mutex is free and the delays are those of [NewClient], with
    [delay] in their range. *)
Definition delaysInRange (c : Client) : Prop :=
  mu c = false /\ initialDelay c = 500 * Millisecond /\
  maxDelay c = 10 * Second /\ 0 <= delay c < 10 * Second.

(** ** Concurrent requests

    net/http runs the handler of every request in a goroutine of its
    own, all on the one [Client].  A goroutine is at one of the points
    where the handler can wait, or has finished. *)
Inductive Goroutine :=
| Arrived                                             (* handler not entered *)
| AtLock (k : Client -> World -> Outcome unit)        (* in [c.mu.Lock()] *)
| InFlight (k : Exchange -> Client -> World -> Outcome unit)
                                                      (* in [httpClient.Do] *)
| Returned                                            (* handler returned *)
| Crashed.                                      (* handler panicked; recovered *)

Record Server := mkServer {
  shared : Client;
  env : World;
  pool : list Goroutine
}.

(** [K] requests have arrived at the client [c]. *)
Definition serve (K : nat) (c : Client) (w : World) : Server :=
  mkServer c w (replicate K Arrived).

(** Goroutine [i] ran up to the outcome [o]. *)
Definition install (i : nat) (o : Outcome unit) (s : Server) : Server :=
  match o with
  | Done _ c w => mkServer c w (<[i := Returned]> (pool s))
  | Panicked c w => mkServer c w (<[i := Crashed]> (pool s))
  | Locking c w k => mkServer c w (<[i := AtLock k]> (pool s))
  | Fetching c w k => mkServer c w (<[i := InFlight k]> (pool s))
  end.

(** The scheduler lets goroutine [i] run to its next waiting point.  A
    goroutine in [Lock] goes on only when the mutex is free; one waiting
    for the server goes on with the server's answer. *)
Definition advance (i : nat) (s : Server) : option Server :=
  match pool s !! i with
  | Some Arrived => Some (install i (HandleStatusRequest (shared s) (env s)) s)
  | Some (AtLock k) =>
      if mu (shared s) then None
      else Some (install i (k (shared s) (env s)) s)
  | Some (InFlight k) =>
      Some (install i
              (k (upstream (env s) (fetches (env s))) (shared s)
                 (fetched (env s)))
              s)
  | _ => None
  end.

Inductive step : Server -> Server -> Prop :=
| step_advance i s s' : advance i s = Some s' -> step s s'.

(** The states the server can be in, from [s]. *)
Inductive reaches (s : Server) : Server -> Prop :=
| reaches_here : reaches s s
| reaches_step s1 s2 : reaches s s1 -> step s1 s2 -> reaches s s2.

(** Running a given schedule. *)
Fixpoint schedule (l : list nat) (s : Server) : option Server :=
  match l with
  | [] => Some s
  | i :: l' =>
      match advance i s with
      | Some s' => schedule l' s'
      | None => None
      end
  end.

Definition isInFlight (g : Goroutine) : bool :=
  match g with InFlight _ => true | _ => false end.

Definition isFinished (g : Goroutine) : bool :=
  match g with Returned | Crashed => true | _ => false end.

Definition isReturned (g : Goroutine) : bool :=
  match g with Returned => true | _ => false end.

Fixpoint count (P : Goroutine -> bool) (p : list Goroutine) : nat :=
  match p with
  | [] => 0
  | g :: p' => (if P g then 1 else 0) + count P p'
  end%nat.

(** How many goroutines are waiting for the server's answer, and how
    many have finished. *)
Definition inFlight (p : list Goroutine) : nat := count isInFlight p.
Definition finished (p : list Goroutine) : nat := count isFinished p.

(** What the handler's continuations do with the mutex and with the
    count of exchanges.  [critical k]: resumed with the server's answer
    while the mutex is held, [k] finishes and leaves the mutex free.
    [entering k]: resumed with the mutex free, [k] either finishes with
    the mutex free again, or holds it and waits for the server with a
    critical continuation. *)
Definition critical (k : Exchange -> Client -> World -> Outcome unit) : Prop :=
  forall x c w, mu c = true ->
    match k x c w with
    | Done _ c' w' | Panicked c' w' => mu c' = false /\ fetches w' = fetches w
    | _ => False
    end.

Definition entering (k : Client -> World -> Outcome unit) : Prop :=
  forall c w, mu c = false ->
    match k c w with
    | Done _ c' w' | Panicked c' w' => mu c' = false /\ fetches w' = fetches w
    | Fetching c' w' k' =>
        mu c' = true /\ fetches w' = fetches w /\ critical k'
    | Locking _ _ _ => False
    end.

Definition handlerAt (g : Goroutine) : Prop :=
  match g with
  | AtLock k => entering k
  | InFlight k => critical k
  | _ => True
  end.

(** The mutex is held exactly while one goroutine waits for the server;
    every exchange made belongs to a goroutine that has finished. *)
Definition lockDiscipline (base : nat) (s : Server) : Prop :=
  Forall handlerAt (pool s) /\
  inFlight (pool s) = (if mu (shared s) then 1 else 0)%nat /\
  (fetches (env s) <= base + finished (pool s))%nat.

(** [resumes k]: once the mutex is free, [k] is the handler from its
    first line. *)
Definition resumes (k : Client -> World -> Outcome unit) : Prop :=
  forall c w, mu c = false -> run (k c w) = exec HandleStatusRequest c w.

(** The server is at a point of the run of the caller who polls one
    request after the other: with [j] goroutines finished, the client is
    as [j] polls leave it when the mutex is free, and the goroutine that
    holds the mutex is in the middle of poll [j+1]. *)
Definition serialized (c : Client) (w : World) (s : Server) : Prop :=
  exists cs cj wj,
    exec (polls (finished (pool s))) c w = Ok cs cj wj /\
    (forall i k, pool s !! i = Some (AtLock k) -> resumes k) /\
    if mu (shared s) then
      forall i k, pool s !! i = Some (InFlight k) ->
        run (k (upstream (env s) (fetches (env s))) (shared s)
               (fetched (env s))) =
        exec HandleStatusRequest cj wj
    else shared s = cj /\ env s = wj.

(** ** The translation server (pkg/server/server.go)

    The simulated server the client polls.  Its handler reads the clock,
    draws from the random source and writes one JSON body; nothing in it
    can panic, and its only waiting point is [s.mu.Lock()]. *)
Module server.

(** [type Config struct] *)
Record Config := mkConfig {
  DelaySeconds : Z;
  ErrorRate : Z
}.

(** [type Server struct]; [mu] is [true] when locked. *)
Record Server := mkServer {
  startTime : Time;
  config : Config;
  status : string;
  mu : bool
}.

Definition set_startTime (v : Time) (s : Server) : Server :=
  mkServer v (config s) (status s) (mu s).
Definition set_status (v : string) (s : Server) : Server :=
  mkServer (startTime s) (config s) v (mu s).
Definition set_mu (v : bool) (s : Server) : Server :=
  mkServer (startTime s) (config s) (status s) v.

(** The lines the server logs. *)
Inductive LogEvent :=
| LogInvalidDelay (delaySeconds : Z)
| LogInvalidErrorRate (errorRate : Z)
| LogReset
| LogEncodeError
| LogHandled (status : string).

(** The world outside the server: the clock and the random source as
    for the client; [sinkOk] tells whether the i-th [Encode] reaches its
    [http.ResponseWriter]; [seeds] are the values given to [rand.Seed];
    [replies] are the bodies written, each the [Result] of a
    [Response]. *)
Record Env := mkEnv {
  clock : nat -> Time;
  ticks : nat;
  dice : nat -> Z;
  rolls : nat;
  seeds : list Z;
  sinkOk : nat -> bool;
  encodes : nat;
  logged : list LogEvent;
  replies : list string
}.

(** A computation of the server: [None] when it waits for ever, on a
    mutex nobody will release. *)
Definition M (A : Type) : Type := Server -> Env -> option (A * Server * Env).

#[global] Instance M_ret : MRet M := fun A a s e => Some (a, s, e).
#[global] Instance M_bind : MBind M := fun A B f m s e =>
  match m s e with
  | Some (a, s', e') => f a s' e'
  | None => None
  end.

Definition gets {A} (f : Server -> A) : M A := fun s e => Some (f s, s, e).
Definition modify (f : Server -> Server) : M unit :=
  fun s e => Some (tt, f s, e).

(** [time.Now()] *)
Definition time_Now : M Time :=
  fun s e =>
    Some (clock e (ticks e), s,
          mkEnv (clock e) (S (ticks e)) (dice e) (rolls e) (seeds e)
            (sinkOk e) (encodes e) (logged e) (replies e)).

(** A [Duration] that does not fit 64 bits is cut to the largest or the
    smallest one. *)
Definition sat64 (z : Z) : Duration :=
  Z.max (- 2 ^ 63) (Z.min (2 ^ 63 - 1) z).

(** [time.Since(t)], that is [time.Now().Sub(t)] *)
Definition time_Since (t : Time) : M Duration :=
  now ← time_Now;
  mret (sat64 (now - t)).

(** [rand.Intn(n)], for a positive [n] *)
Definition rand_Intn (n : Z) : M Z :=
  fun s e =>
    Some (dice e (rolls e) `mod` n, s,
          mkEnv (clock e) (ticks e) (dice e) (S (rolls e)) (seeds e)
            (sinkOk e) (encodes e) (logged e) (replies e)).

(** [log.Printf] and [log.Println] *)
Definition Printf (l : LogEvent) : M unit :=
  fun s e =>
    Some (tt, s,
          mkEnv (clock e) (ticks e) (dice e) (rolls e) (seeds e)
            (sinkOk e) (encodes e) (logged e ++ [l]) (replies e)).

(** [json.NewEncoder(w).Encode(response)]: the result says whether the
    body was written. *)
Definition Encode (result : string) : M bool :=
  fun s e =>
    let ok := sinkOk e (encodes e) in
    Some (ok, s,
          mkEnv (clock e) (ticks e) (dice e) (rolls e) (seeds e)
            (sinkOk e) (S (encodes e)) (logged e)
            (if ok then replies e ++ [result] else replies e)).

(** [s.mu.Lock()] and [s.mu.Unlock()] *)
Definition mu_Lock : M unit :=
  fun s e => if mu s then None else Some (tt, set_mu true s, e).
Definition mu_Unlock : M unit :=
  fun s e => Some (tt, set_mu false s, e).

(** [NewServer]: the server and the error, which is always [nil]. *)
Definition NewServer (delaySeconds errorRate : Z) (e : Env)
    : (Server * option error) * Env :=
  let '(delaySeconds, logs1) :=
    if delaySeconds <=? 0 then (10, [LogInvalidDelay delaySeconds])
    else (delaySeconds, []) in
  let '(errorRate, logs2) :=
    if (errorRate <? 0) || (errorRate >? 100)
    then (20, [LogInvalidErrorRate errorRate])
    else (errorRate, []) in
  let config := mkConfig delaySeconds errorRate in
  let seed := clock e (ticks e) in
  let start := clock e (S (ticks e)) in
  (mkServer start config "pending" false, None,
   mkEnv (clock e) (S (S (ticks e))) (dice e) (rolls e) (seeds e ++ [seed])
     (sinkOk e) (encodes e) (logged e ++ logs1 ++ logs2) (replies e)).

(** [randomStatus] *)
Definition randomStatus : M string :=
  cfg ← gets config;
  r ← rand_Intn 100;
  if r <? ErrorRate cfg then mret "error" else mret "completed".

(** [statusHandler] *)
Definition statusHandler : M unit :=
  mu_Lock ;;
  st ← gets status;
  (if negb (String.eqb st "pending") then
     t ← time_Now;
     modify (set_startTime t) ;;
     modify (set_status "pending") ;;
     Printf LogReset
   else mret tt) ;;
  start ← gets startTime;
  elapsed ← time_Since start;
  st ← gets status;
  cfg ← gets config;
  (if String.eqb st "pending"
      && (wrap64 (DelaySeconds cfg * Second) <=? elapsed)
   then
     r ← randomStatus;
     modify (set_status r)
   else mret tt) ;;
  response ← gets status;
  ok ← Encode response;
  (if negb ok then Printf LogEncodeError else mret tt) ;;
  st ← gets status;
  Printf (LogHandled st) ;;
  mu_Unlock.

(** [n] requests handled one after the other. *)
Fixpoint requests (n : nat) : M unit :=
  match n with
  | O => mret tt
  | S n => statusHandler ;; requests n
  end.

End server.

(** ** Configurations and worlds used in the examples *)

(** [log.New(os.Stdout, "INFO: ", log.LstdFlags)] *)
Definition stdLogger : log_Logger := mkLogger "INFO: " 3.

(** The client of cmd/client/main.go. *)
Definition client0 : Client := NewClient "http://localhost:8080" stdLogger.

(** The default client but for an [initialDelay] of 1ns. *)
Definition tinyClient : Client :=
  mkClient (BaseURL client0) (Logger client0) tt false "" 0 0
    (maxDelay client0) (maxRetries client0) zeroTime zeroTime
    (1 * Nanosecond) false (timeout client0).

Definition exampleWorld (clk : nat -> Time) (up : nat -> Exchange)
    (ent : nat -> Z) : World :=
  mkWorld clk 0 up 0 ent 0 (fun _ => true) [] [].

(** A caller so slow that every poll is due: 20s between two readings
    of the clock. *)
Definition spacedClock (i : nat) : Time := Z.of_nat i * (20 * Second).

(** A caller so fast that polls fall before [nextRequest]: 1ms between
    two readings. *)
Definition rapidClock (i : nat) : Time := Z.of_nat i * Millisecond.

Definition saysPending (_ : nat) : Exchange := Reply 200 (Decoded "pending").
Definition saysCompleted (_ : nat) : Exchange :=
  Reply 200 (Decoded "completed").
Definition saysNothing (_ : nat) : Exchange := Reply 200 (Decoded "").
Definition refuses (_ : nat) : Exchange := TransportError.

Definition pendingWorld : World :=
  exampleWorld spacedClock saysPending (fun _ => 0).
Definition rapidWorld : World :=
  exampleWorld rapidClock saysPending (fun _ => 0).
Definition completedWorld : World :=
  exampleWorld spacedClock saysCompleted (fun _ => 0).
Definition emptyResultWorld : World :=
  exampleWorld spacedClock saysNothing (fun _ => 0).
Definition downWorld : World :=
  exampleWorld spacedClock refuses (fun _ => 0).

(** Jitter as large as it can be on the first four draws, none after. *)
Definition dipEntropy (i : nat) : Z :=
  nth i [499999999; 999999998; 1999999996; 3999999992] 0.
Definition dipWorld : World :=
  exampleWorld spacedClock saysPending dipEntropy.

Definition clientAfter {A} (r : Result A) : Client :=
  match r with Ok _ c _ | Panic c _ | Deadlock c _ => c end.
Definition worldAfter {A} (r : Result A) : World :=
  match r with Ok _ _ w | Panic _ w | Deadlock _ w => w end.

(** A field of the client can be set through [NewClient]: two calls
    differ in it. *)
Definition overridable {A} (field : Client -> A) : Prop :=
  exists b1 l1 b2 l2, field (NewClient b1 l1) <> field (NewClient b2 l2).

(** The state in which a poll of [c] in [w] reaches the check of the
    clock: after [startSequence]. *)
Definition startedClient (c : Client) (w : World) : Client :=
  clientAfter (exec startSequence c w).
Definition startedWorld (c : Client) (w : World) : World :=
  worldAfter (exec startSequence c w).

(** After 19 failed requests in a row. *)
Definition nearCeiling : Client :=
  clientAfter (exec (polls 19) client0 downWorld).
Definition nearCeilingWorld : World :=
  worldAfter (exec (polls 19) client0 downWorld).

(** After a first poll, answered "pending", of a rapid caller. *)
Definition cachedClient : Client :=
  clientAfter (exec HandleStatusRequest client0 rapidWorld).
Definition cachedWorld : World :=
  worldAfter (exec HandleStatusRequest client0 rapidWorld).

(** ** Further vocabulary *)

(** Successive readings of the clock never go back. *)
Definition clockMonotone (w : World) : Prop :=
  forall i j, (i <= j)%nat -> clock w i <= clock w j.

(** What the handler leaves alone: the settings of the client. *)
Definition sameSettings (c c' : Client) : Prop :=
  BaseURL c' = BaseURL c /\ Logger c' = Logger c /\
  httpClient c' = httpClient c /\ maxDelay c' = maxDelay c /\
  maxRetries c' = maxRetries c /\ initialDelay c' = initialDelay c /\
  timeout c' = timeout c.

(** A status the client may serve: "pending", or a result the server
    sent in some 200 reply. *)
Definition sentBy (w : World) (s : string) : Prop :=
  s = "pending" \/ exists i, upstream w i = Reply 200 (Decoded s).

(** The responses the handler writes. *)
Definition servable (w : World) (r : Response) : Prop :=
  r = PlainText 500 "Max retries reached" \/
  exists s, r = JsonResult 200 s /\ sentBy w s.

(** The three statuses of the server. *)
Definition recognized (s : string) : Prop :=
  s = "pending" \/ s = "completed" \/ s = "error".

(** ** The client in front of the server

    What [httpClient.Do] and the decoding of the body give the client
    when the server, in state [srv], handles the request: the 200 reply
    with the [Result] the handler encoded; a transport error when the
    body could not be written; no answer within the timeout when the
    handler never gets its mutex. *)
Definition answerOf (srv : server.Server) (e : server.Env) : Exchange :=
  match server.statusHandler srv e with
  | Some (_, srv', e') =>
      if server.sinkOk e (server.encodes e)
      then Reply 200 (Decoded (server.status srv'))
      else TransportError
  | None => DeadlineExceeded
  end.

(** The server after [n] requests. *)
Definition serverAfter (n : nat) (srv : server.Server) (e : server.Env)
    : option (server.Server * server.Env) :=
  match server.requests n srv e with
  | Some (_, srv', e') => Some (srv', e')
  | None => None
  end.

(** The answers the server gives to the successive requests of the
    client. *)
Definition upstreamOf (srv : server.Server) (e : server.Env) (i : nat)
    : Exchange :=
  match serverAfter i srv e with
  | Some (srv', e') => answerOf srv' e'
  | None => DeadlineExceeded
  end.

(** The world [w] with the server [srv] as the upstream. *)
Definition against (srv : server.Server) (e : server.Env) (w : World)
    : World :=
  mkWorld (clock w) (ticks w) (upstreamOf srv e) (fetches w) (entropy w)
    (draws w) (urlParses w) (logged w) (written w).

(** The URL of the client parses and the server answers every request
    with a 200 and one of its three statuses. *)
Definition healthy (c : Client) (w : World) : Prop :=
  urlParses w (BaseURL c +:+ "/status") = true /\
  forall i, exists s, recognized s /\ upstream w i = Reply 200 (Decoded s).

(** ** Servers used in the examples *)

(** One reading of the clock per second, every draw 57, every body
    written. *)
Definition env0 : server.Env :=
  server.mkEnv (fun i => Z.of_nat i * Second) 0 (fun _ => 57) 0 []
    (fun _ => true) 0 [] [].

(** [NewServer(10, 20)], as cmd/server/main.go builds it by default. *)
Definition server0 : server.Server := (server.NewServer 10 20 env0).1.1.
Definition env1 : server.Env := (server.NewServer 10 20 env0).2.

(** A server that has handed out "completed". *)
Definition doneServer : server.Server :=
  server.set_status "completed" server0.

(** A server with a delay of 9223372037 seconds. *)
Definition overlongServer : server.Server :=
  server.mkServer 0 (server.mkConfig 9223372037 20) "pending" false.

(** A server that never fails, and one that always does. *)
Definition reliableServer : server.Server :=
  server.mkServer 0 (server.mkConfig 1 0) "pending" false.

(** ** Running computations: the equations used below *)

Ltac munfold :=
  unfold exec, HandleStatusRequest, startSequence, requestServer,
    RetrieveStatus, nextDelay, defer, respondWithStatus, respondWithError,
    mu_Lock, mu_Unlock, httpClient_Do, http_NewRequest, Printf, rand_Int63n,
    time_Now, gets, modify, mbind, M_bind, mret, M_ret in *.

Lemma run_bindO {A B} (o : Outcome A) (f : A -> M B) :
  run (bindO o f) =
  match run o with
  | Ok a c w => run (f a c w)
  | Panic c w => Panic c w
  | Deadlock c w => Deadlock c w
  end.
Proof.
  induction o as [a c w|c w|c w k IH|c w k IH]; cbn; try reflexivity.
  - destruct (mu c); [reflexivity|apply IH].
  - apply IH.
Qed.

Lemma exec_bind {A B} (m : M A) (f : A -> M B) c w :
  exec (m ≫= f) c w =
  match exec m c w with
  | Ok a c' w' => exec (f a) c' w'
  | Panic c' w' => Panic c' w'
  | Deadlock c' w' => Deadlock c' w'
  end.
Proof. unfold exec, mbind, M_bind. apply run_bindO. Qed.

Lemma set_mu_unlock c : mu c = false -> set_mu false (set_mu true c) = c.
Proof. destruct c; cbn; intros ->; reflexivity. Qed.

(** [startSequence] always returns; it changes nothing while a sequence
    is active. *)
Lemma exec_startSequence_active c w :
  pending c = true -> exec startSequence c w = Ok tt c w.
Proof. intros Hp. munfold; cbn. rewrite Hp. reflexivity. Qed.

Lemma exec_startSequence_idle c w :
  pending c = false ->
  exec startSequence c w =
  Ok tt
    (set_nextRequest (clock w (ticks w))
       (set_lastRequest zeroTime
          (set_delay (initialDelay c)
             (set_attempt 0 (set_status "pending" (set_pending true c))))))
    (tick (log LogStarting w)).
Proof. intros Hp. munfold; cbn. rewrite Hp. reflexivity. Qed.

Lemma startSequence_frame c w c0 w0 :
  exec startSequence c w = Ok tt c0 w0 ->
  pending c0 = true /\ mu c0 = mu c /\ BaseURL c0 = BaseURL c /\
  maxRetries c0 = maxRetries c /\ maxDelay c0 = maxDelay c /\
  initialDelay c0 = initialDelay c /\
  upstream w0 = upstream w /\ fetches w0 = fetches w /\
  urlParses w0 = urlParses w /\ entropy w0 = entropy w /\
  draws w0 = draws w /\ clock w0 = clock w /\ written w0 = written w.
Proof.
  destruct (pending c) eqn:Hp.
  - rewrite exec_startSequence_active by assumption.
    intros [= <- <-]. repeat split; assumption || reflexivity.
  - rewrite exec_startSequence_idle by assumption.
    intros [= <- <-]. repeat split; reflexivity.
Qed.

(** ** One request, path by path *)

Lemma handler_restart c w c0 w0 :
  mu c = false ->
  exec startSequence c w = Ok tt c0 w0 ->
  exec HandleStatusRequest c w = exec HandleStatusRequest c0 w0.
Proof.
  intros Hm Hstart.
  destruct (pending c) eqn:Hp.
  - rewrite exec_startSequence_active in Hstart by assumption.
    injection Hstart as <- <-. reflexivity.
  - rewrite exec_startSequence_idle in Hstart by assumption.
    injection Hstart as <- <-.
    munfold. cbn. rewrite Hm, Hp. cbn. reflexivity.
Qed.

Ltac enter Hm Hp :=
  munfold; cbn; rewrite Hm; cbn; rewrite Hp; cbn.

Lemma poll_cache_hit c w :
  mu c = false -> pending c = true ->
  clock w (ticks w) < nextRequest c ->
  exec HandleStatusRequest c w =
  Ok tt c
    (write (JsonResult 200 (status c))
       (log (LogNextRequestIn (nextRequest c - clock w (ticks w))) (tick w))).
Proof.
  intros Hm Hp Hlt. enter Hm Hp.
  destruct (Z.ltb_spec (clock w (ticks w)) (nextRequest c)); [|lia].
  cbn. rewrite set_mu_unlock by assumption. reflexivity.
Qed.

(** [failedFetch] and [fetchYields] are the two results of
    [RetrieveStatus]: an error, or a status with no error. *)
Lemma failedFetch_error c w :
  failedFetch c w ->
  exists e w', exec RetrieveStatus c w = Ok ("", Some e) c w' /\
    w' = (if urlParses w (BaseURL c +:+ "/status") then fetched w else w).
Proof.
  intros [Hu|Hx]; munfold; cbn.
  - rewrite Hu. cbn. eauto.
  - destruct (urlParses w _); cbn; [|eauto].
    destruct (upstream w (fetches w)) as [| |code body]; cbn; eauto.
    destruct (Z.eqb_spec code 200) as [->|]; cbn; eauto.
    destruct Hx as [Hc | ->]; [congruence|]. eauto.
Qed.

Lemma fetchYields_status s c w :
  fetchYields s c w ->
  exec RetrieveStatus c w = Ok (s, None) c (fetched w).
Proof.
  intros [Hu Hx]. munfold; cbn. rewrite Hu; cbn. rewrite Hx. reflexivity.
Qed.

Ltac finish c :=
  cbn; destruct (maxRetries c <=? wrap64 (attempt c + 1)); cbn;
  destruct c; cbn in *; subst; reflexivity.

Lemma poll_failed c w :
  mu c = false -> pending c = true ->
  nextRequest c <= clock w (ticks w) ->
  failedFetch c w ->
  exists e,
    let a := wrap64 (attempt c + 1) in
    let w1 := log (LogAttemptError a e) (afterFetch c w) in
    exec HandleStatusRequest c w =
    if maxRetries c <=? a then
      Ok tt (set_pending false (set_attempt a c))
        (write (PlainText 500 "Max retries reached") (log LogMaxRetries w1))
    else
      Ok tt (set_lastRequest (clock w1 (ticks w1)) (set_attempt a c))
        (write (JsonResult 200 (status c)) (tick w1)).
Proof.
  intros Hm Hp Hdue Hfail. unfold afterFetch. enter Hm Hp.
  destruct (Z.ltb_spec (clock w (ticks w)) (nextRequest c)); [lia|].
  cbn. destruct Hfail as [Hu|Hx].
  - rewrite Hu. cbn. exists errNewRequest.
    finish c.
  - destruct (urlParses w _); cbn.
    + destruct (upstream w (fetches w)) as [| |code body]; cbn.
      * exists errTransport.
    finish c.
      * exists errDeadline.
    finish c.
      * destruct (Z.eqb_spec code 200) as [->|]; cbn.
        -- destruct Hx as [Hc | ->]; [congruence|]. exists errDecode.
    finish c.
        -- exists errNon200.
    finish c.
    + exists errNewRequest.
    finish c.
Qed.

Lemma poll_terminal s c w :
  mu c = false -> pending c = true ->
  nextRequest c <= clock w (ticks w) ->
  fetchYields s c w -> s <> "pending" ->
  let a := wrap64 (attempt c + 1) in
  let w1 := log (LogReceived a s) (fetched (tick w)) in
  exec HandleStatusRequest c w =
  Ok tt (set_lastRequest (clock w1 (ticks w1))
           (set_pending false (set_status s (set_attempt a c))))
    (write (JsonResult 200 s) (tick w1)).
Proof.
  intros Hm Hp Hdue [Hu Hx] Hs. enter Hm Hp.
  destruct (Z.ltb_spec (clock w (ticks w)) (nextRequest c)); [lia|].
  cbn. rewrite Hu; cbn. rewrite Hx; cbn.
  destruct (String.eqb_spec s "pending"); [contradiction|]. cbn.
  destruct c; cbn in *; subst; reflexivity.
Qed.

Lemma poll_pending c w :
  mu c = false -> pending c = true ->
  nextRequest c <= clock w (ticks w) ->
  fetchYields "pending" c w ->
  let a := wrap64 (attempt c + 1) in
  let half := cappedDelay (initialDelay c) (maxDelay c) (delay c) `quot` 2 in
  let w1 := log (LogReceived a "pending") (fetched (tick w)) in
  let d := wrap64 (half + entropy w (draws w) `mod` half) in
  let w2 := log (LogBackoff half (entropy w (draws w) `mod` half) d) (drawn w1) in
  let w3 := log (LogNextAttempt d) (tick w2) in
  exec HandleStatusRequest c w =
  if half <=? 0 then
    Panic (set_status "pending" (set_attempt a c)) w1
  else
    Ok tt (set_lastRequest (clock w3 (ticks w3))
             (set_nextRequest (clock w2 (ticks w2) + d)
                (set_delay d (set_status "pending" (set_attempt a c)))))
      (write (JsonResult 200 "pending") (tick w3)).
Proof.
  intros Hm Hp Hdue [Hu Hx]. enter Hm Hp.
  destruct (Z.ltb_spec (clock w (ticks w)) (nextRequest c)); [lia|].
  cbn. rewrite Hu; cbn. rewrite Hx; cbn.
  destruct (_ <=? 0); cbn; destruct c; cbn in *; subst; reflexivity.
Qed.

(** ** Polls answered from the cache *)

Lemma exec_polls_S n c w :
  exec (polls (S n)) c w =
  match exec HandleStatusRequest c w with
  | Ok _ c1 w1 =>
      match exec (polls n) c1 w1 with
      | Ok cs c2 w2 => Ok (c1 :: cs) c2 w2
      | Panic c2 w2 => Panic c2 w2
      | Deadlock c2 w2 => Deadlock c2 w2
      end
  | Panic c1 w1 => Panic c1 w1
  | Deadlock c1 w1 => Deadlock c1 w1
  end.
Proof.
  cbn [polls]. rewrite exec_bind.
  destruct (exec HandleStatusRequest c w) as [[] c1 w1|c1 w1|c1 w1];
    try reflexivity.
  rewrite exec_bind. cbn. rewrite exec_bind.
  destruct (exec (polls n) c1 w1); reflexivity.
Qed.

Lemma polls_cache_hits n : forall c w,
  mu c = false -> pending c = true ->
  (forall i, (i < n)%nat -> clock w (ticks w + i) < nextRequest c) ->
  exists w',
    exec (polls n) c w = Ok (replicate n c) c w' /\
    fetches w' = fetches w /\ upstream w' = upstream w /\
    written w' = written w ++ replicate n (JsonResult 200 (status c)).
Proof.
  induction n as [|n IH]; intros c w Hm Hp Hwin.
  - exists w. cbn. rewrite app_nil_r. auto.
  - rewrite exec_polls_S, poll_cache_hit; try assumption.
    2:{ specialize (Hwin O). rewrite Nat.add_0_r in Hwin. apply Hwin. lia. }
    edestruct IH as (w' & -> & Hf & Hu & Hw); [exact Hm|exact Hp| |].
    { intros i Hi. cbn. specialize (Hwin (S i)).
      rewrite Nat.add_succ_r in Hwin. apply Hwin. lia. }
    exists w'. split; [reflexivity|]. rewrite Hf, Hu, Hw. cbn.
    rewrite <- app_assoc. auto.
Qed.

(** C4. While a sequence is active and the instant read is before
    [nextRequest], the handler answers 200 with the cached status, calls
    the server not at all and leaves the client as it was, field by
    field; [n] polls in that window all get that same status and leave
    the client unchanged. *)
Theorem cached_poll_leaves_state (c : Client) (w : World) (n : nat) :
  mu c = false -> pending c = true ->
  (forall i, (i < S n)%nat -> clock w (ticks w + i) < nextRequest c) ->
  (exists w1,
     exec HandleStatusRequest c w = Ok tt c w1 /\
     fetches w1 = fetches w /\
     written w1 = written w ++ [JsonResult 200 (status c)]) /\
  (exists w',
     exec (polls (S n)) c w = Ok (replicate (S n) c) c w' /\
     fetches w' = fetches w /\
     written w' = written w ++ replicate (S n) (JsonResult 200 (status c))).
Proof.
  intros Hm Hp Hwin. split.
  - eexists. rewrite poll_cache_hit; try assumption.
    + split; [reflexivity|]. cbn. auto.
    + specialize (Hwin O). rewrite Nat.add_0_r in Hwin. apply Hwin. lia.
  - destruct (polls_cache_hits (S n) c w Hm Hp Hwin) as (w' & He & Hf & _ & Hw).
    exists w'. auto.
Qed.

(** ** Polls that ask the server *)

Lemma started_active c w c0 w0 :
  mu c = false ->
  exec startSequence c w = Ok tt c0 w0 ->
  mu c0 = false /\ pending c0 = true /\ written w0 = written w /\
  exec HandleStatusRequest c w = exec HandleStatusRequest c0 w0.
Proof.
  intros Hm Hstart.
  pose proof (startSequence_frame _ _ _ _ Hstart) as (Hp & Hmu & F).
  repeat split; [congruence|assumption|apply F|].
  apply handler_restart; assumption.
Qed.

(** C3. A request to the server that fails while [attempt] is still below
    [maxRetries] leaves [status], [nextRequest] and [delay] as they were
    when the request was made, keeps the sequence active, and the caller
    gets the cached status in a 200 response. *)
Theorem failed_fetch_serves_cache (c : Client) (w : World) c0 w0 :
  mu c = false ->
  exec startSequence c w = Ok tt c0 w0 ->
  nextRequest c0 <= clock w0 (ticks w0) ->
  failedFetch c0 w0 ->
  wrap64 (attempt c0 + 1) < maxRetries c0 ->
  exists c' w',
    exec HandleStatusRequest c w = Ok tt c' w' /\
    status c' = status c0 /\ nextRequest c' = nextRequest c0 /\
    delay c' = delay c0 /\ pending c' = true /\
    attempt c' = wrap64 (attempt c0 + 1) /\
    written w' = written w ++ [JsonResult 200 (status c0)].
Proof.
  intros Hm Hstart Hdue Hfail Hlt.
  destruct (started_active _ _ _ _ Hm Hstart) as (Hm0 & Hp0 & Hw0 & ->).
  destruct (poll_failed c0 w0 Hm0 Hp0 Hdue Hfail) as (e & He).
  cbn zeta in He. rewrite He.
  destruct (Z.leb_spec (maxRetries c0) (wrap64 (attempt c0 + 1))); [lia|].
  do 2 eexists. split; [reflexivity|]. cbn.
  unfold afterFetch. destruct (urlParses w0 _); cbn; rewrite Hw0; auto 10.
Qed.

(** A request that fails once [attempt] has reached [maxRetries] ends
    the sequence ([pending] false) and writes one response, the 500
    error; [status], [delay] and [nextRequest] stay as they were. *)
Lemma failed_fetch_at_ceiling c w c0 w0 :
  mu c = false ->
  exec startSequence c w = Ok tt c0 w0 ->
  nextRequest c0 <= clock w0 (ticks w0) ->
  failedFetch c0 w0 ->
  maxRetries c0 <= wrap64 (attempt c0 + 1) ->
  exists c' w',
    exec HandleStatusRequest c w = Ok tt c' w' /\
    pending c' = false /\ mu c' = false /\
    status c' = status c0 /\ nextRequest c' = nextRequest c0 /\
    delay c' = delay c0 /\
    attempt c' = wrap64 (attempt c0 + 1) /\
    written w' = written w ++ [PlainText 500 "Max retries reached"].
Proof.
  intros Hm Hstart Hdue Hfail Hge.
  destruct (started_active _ _ _ _ Hm Hstart) as (Hm0 & Hp0 & Hw0 & ->).
  destruct (poll_failed c0 w0 Hm0 Hp0 Hdue Hfail) as (e & He).
  cbn zeta in He. rewrite He.
  destruct (Z.leb_spec (maxRetries c0) (wrap64 (attempt c0 + 1))); [|lia].
  do 2 eexists. split; [reflexivity|]. cbn.
  unfold afterFetch. destruct (urlParses w0 _); cbn; rewrite Hw0; auto 10.
Qed.

Lemma fetched_terminal s c w c0 w0 :
  mu c = false ->
  exec startSequence c w = Ok tt c0 w0 ->
  nextRequest c0 <= clock w0 (ticks w0) ->
  fetchYields s c0 w0 -> s <> "pending" ->
  exists c' w',
    exec HandleStatusRequest c w = Ok tt c' w' /\
    status c' = s /\ pending c' = false /\ mu c' = false /\
    attempt c' = wrap64 (attempt c0 + 1) /\
    nextRequest c' = nextRequest c0 /\ delay c' = delay c0 /\
    fetches w' = S (fetches w0) /\
    written w' = written w ++ [JsonResult 200 s].
Proof.
  intros Hm Hstart Hdue Hy Hs.
  destruct (started_active _ _ _ _ Hm Hstart) as (Hm0 & Hp0 & Hw0 & ->).
  rewrite (poll_terminal s c0 w0 Hm0 Hp0 Hdue Hy Hs).
  do 2 eexists. split; [reflexivity|]. cbn. rewrite Hw0. auto 10.
Qed.

(** C10. A 200 reply whose body decodes is never a failure: its result
    field becomes [status] whatever the string is, and every string other
    than "pending" ends the sequence and is returned to the caller in a
    200 response, with no look at [maxRetries]. *)
Theorem any_decoded_result_is_adopted (s : string) (c : Client) (w : World)
    c0 w0 :
  mu c = false ->
  exec startSequence c w = Ok tt c0 w0 ->
  nextRequest c0 <= clock w0 (ticks w0) ->
  fetchYields s c0 w0 ->
  ~ failedFetch c0 w0 /\
  match exec HandleStatusRequest c w with
  | Ok _ c' _ | Panic c' _ => status c' = s
  | Deadlock _ _ => False
  end /\
  (s <> "pending" ->
   exists c' w',
     exec HandleStatusRequest c w = Ok tt c' w' /\
     status c' = s /\ pending c' = false /\
     written w' = written w ++ [JsonResult 200 s]).
Proof.
  intros Hm Hstart Hdue Hy. split; [|split].
  - destruct Hy as [Hu Hx]. unfold failedFetch. rewrite Hu, Hx.
    intros [?|[?|?]]; congruence.
  - destruct (String.eqb_spec s "pending") as [->|Hs].
    + destruct (started_active _ _ _ _ Hm Hstart) as (Hm0 & Hp0 & Hw0 & ->).
      pose proof (poll_pending c0 w0 Hm0 Hp0 Hdue Hy) as He.
      cbn zeta in He. rewrite He. destruct (_ <=? 0); reflexivity.
    + destruct (fetched_terminal s c w c0 w0 Hm Hstart Hdue Hy Hs)
        as (c' & w' & -> & Hst & _). exact Hst.
  - intros Hs.
    destruct (fetched_terminal s c w c0 w0 Hm Hstart Hdue Hy Hs)
      as (c' & w' & He & Hst & Hp & _ & _ & _ & _ & _ & Hw).
    exists c', w'. auto.
Qed.

(** C5. A "completed" or "error" answer of the server becomes [status]
    and ends the sequence.  Once no sequence is active (after such an
    answer, or after the retry ceiling), the next poll first starts a new
    sequence: [attempt] 0, [status] "pending", [delay] [initialDelay],
    [nextRequest] the instant just read; it then goes on as a poll of
    that fresh sequence. *)
Theorem terminal_ends_then_restarts (c : Client) (w : World) :
  mu c = false ->
  (forall s c0 w0,
     exec startSequence c w = Ok tt c0 w0 ->
     nextRequest c0 <= clock w0 (ticks w0) ->
     fetchYields s c0 w0 ->
     s = "completed" \/ s = "error" ->
     exists c' w',
       exec HandleStatusRequest c w = Ok tt c' w' /\
       status c' = s /\ pending c' = false /\ mu c' = false) /\
  (pending c = false ->
   exists c0 w0,
     exec startSequence c w = Ok tt c0 w0 /\
     pending c0 = true /\ attempt c0 = 0 /\ status c0 = "pending" /\
     delay c0 = initialDelay c /\ nextRequest c0 = clock w (ticks w) /\
     exec HandleStatusRequest c w = exec HandleStatusRequest c0 w0).
Proof.
  intros Hm. split.
  - intros s c0 w0 Hstart Hdue Hy Hs.
    assert (s <> "pending") as Hne by (destruct Hs; subst; discriminate).
    destruct (fetched_terminal s c w c0 w0 Hm Hstart Hdue Hy Hne)
      as (c' & w' & He & Hst & Hp & Hmu & _).
    exists c', w'. auto.
  - intros Hp. do 2 eexists.
    split; [apply exec_startSequence_idle; assumption|].
    cbn. repeat split.
    apply handler_restart; [assumption|].
    apply exec_startSequence_idle; assumption.
Qed.

(** ** The backoff schedule *)

Lemma wrap64_small z : - 2 ^ 63 <= z < 2 ^ 63 -> wrap64 z = z.
Proof. intros H. unfold wrap64. rewrite Z.mod_small; lia. Qed.

Lemma quot2_bounds z : 0 <= z -> 2 * (z `quot` 2) <= z < 2 * (z `quot` 2) + 2.
Proof.
  intros Hz. pose proof (Z.quot_rem' z 2) as Hq.
  pose proof (Z.rem_bound_pos z 2 Hz ltac:(lia)). lia.
Qed.

Lemma exec_nextDelay current c w :
  let half := cappedDelay (initialDelay c) (maxDelay c) current `quot` 2 in
  let jitter := entropy w (draws w) `mod` half in
  exec (nextDelay current) c w =
  if half <=? 0 then Panic c w
  else Ok (wrap64 (half + jitter)) c
         (log (LogBackoff half jitter (wrap64 (half + jitter))) (drawn w)).
Proof. munfold; cbn. destruct (_ <=? 0); reflexivity. Qed.

(** Without overflow the capped delay is the base of the schedule. *)
Lemma cappedDelay_base initial maxD current :
  initial <= maxD -> maxD < 2 ^ 62 -> 0 <= current <= maxD ->
  cappedDelay initial maxD current =
  if current =? 0 then initial else Z.min (current * 2) maxD.
Proof.
  intros Hi Hm Hc. unfold cappedDelay.
  destruct (Z.eqb_spec current 0) as [->|Hne].
  - destruct (Z.gtb_spec initial maxD); [lia|reflexivity].
  - rewrite wrap64_small by lia.
    destruct (Z.gtb_spec (current * 2) maxD); lia.
Qed.

(** The result of [nextDelay] lies in the upper half of the capped
    delay, as soon as that half is not empty. *)
Lemma nextDelay_upper_half current c w :
  2 <= cappedDelay (initialDelay c) (maxDelay c) current ->
  let base := cappedDelay (initialDelay c) (maxDelay c) current in
  exists d w',
    exec (nextDelay current) c w = Ok d c w' /\
    d = wrap64 (base `quot` 2 + entropy w (draws w) `mod` (base `quot` 2)) /\
    w' = log (LogBackoff (base `quot` 2)
                (entropy w (draws w) `mod` (base `quot` 2)) d) (drawn w).
Proof.
  intros Hb base. rewrite exec_nextDelay. fold base.
  pose proof (quot2_bounds base ltac:(lia)).
  destruct (Z.leb_spec (base `quot` 2) 0); [lia|].
  do 2 eexists. split; [reflexivity|]. split; reflexivity.
Qed.

Lemma jittered_range base e :
  2 <= base < 2 ^ 63 ->
  let d := wrap64 (base `quot` 2 + e `mod` (base `quot` 2)) in
  base `quot` 2 <= d < base.
Proof.
  intros Hb. pose proof (quot2_bounds base ltac:(lia)).
  pose proof (Z.mod_pos_bound e (base `quot` 2) ltac:(lia)).
  cbn zeta. rewrite wrap64_small; lia.
Qed.

(** The range of [nextDelay] for any settings with
    [2ns <= initialDelay <= maxDelay < 2^62 ns]: the result is in
    [base/2, base) for [base] = [initialDelay] when [current = 0] and
    [min (current * 2) maxDelay] otherwise. *)
Lemma nextDelay_in_upper_half_of_base (c : Client) (w : World)
    (current : Duration) :
  2 <= initialDelay c <= maxDelay c ->
  maxDelay c < 2 ^ 62 ->
  0 <= current <= maxDelay c ->
  let base :=
    if current =? 0 then initialDelay c else Z.min (current * 2) (maxDelay c) in
  exists d w',
    exec (nextDelay current) c w = Ok d c w' /\
    base `quot` 2 <= d < base /\ d < maxDelay c.
Proof.
  intros Hi Hm Hc base.
  pose proof (cappedDelay_base (initialDelay c) (maxDelay c) current
                ltac:(lia) Hm Hc) as Hcap. fold base in Hcap.
  assert (2 <= base <= maxDelay c) as Hb.
  { unfold base. destruct (Z.eqb_spec current 0); lia. }
  destruct (nextDelay_upper_half current c w) as (d & w' & He & Hd & _).
  { rewrite Hcap. lia. }
  rewrite Hcap in Hd. exists d, w'. split; [exact He|].
  pose proof (jittered_range base (entropy w (draws w)) ltac:(lia)) as Hr.
  cbn zeta in Hr. rewrite <- Hd in Hr. lia.
Qed.

(** C2. For the client [NewClient] builds and every current delay in
    [0, maxDelay], [nextDelay current] returns a value in [base/2, base),
    where [base] is [initialDelay] when [current = 0] and
    [min (current * 2) maxDelay] otherwise; the result is strictly less
    than [maxDelay]. *)
Theorem nextDelay_within_base (baseURL : string) (logger : log_Logger)
    (w : World) (current : Duration) :
  let c := NewClient baseURL logger in
  0 <= current <= maxDelay c ->
  let base :=
    if current =? 0 then initialDelay c else Z.min (current * 2) (maxDelay c) in
  exists d w',
    exec (nextDelay current) c w = Ok d c w' /\
    base `quot` 2 <= d < base /\ d < maxDelay c.
Proof.
  intros c Hc.
  apply (nextDelay_in_upper_half_of_base c w current).
  - cbn. unfold Second, Millisecond, Nanosecond. lia.
  - cbn. unfold Second, Millisecond, Nanosecond. lia.
  - exact Hc.
Qed.

Lemma cappedDelay_default current :
  0 <= current < 2 ^ 62 ->
  2 <= cappedDelay (500 * Millisecond) (10 * Second) current <= 10 * Second.
Proof.
  intros Hc. unfold cappedDelay.
  destruct (Z.eqb_spec current 0) as [->|Hne].
  - cbv. split; discriminate.
  - rewrite wrap64_small by lia.
    destruct (Z.gtb_spec (current * 2) (10 * Second));
      unfold Second, Millisecond, Nanosecond in *; lia.
Qed.

Lemma quot2_nonpos z : z < 2 -> z `quot` 2 <= 0.
Proof.
  intros Hz. destruct (Z.le_gt_cases 0 z) as [Hnn|Hneg].
  - pose proof (quot2_bounds z Hnn). lia.
  - pose proof (Z.quot_rem' z 2) as Hq.
    pose proof (Z.rem_bound_pos_neg z 2 ltac:(lia) ltac:(lia)). lia.
Qed.

Lemma halved_capped_delay d :
  500 * Millisecond <= d < 10 * Second ->
  cappedDelay (500 * Millisecond) (10 * Second) d `quot` 2 =
  Z.min d (5 * Second).
Proof.
  unfold cappedDelay, Second, Millisecond, Nanosecond. intros Hd.
  destruct (Z.eqb_spec d 0); [lia|].
  rewrite wrap64_small by lia.
  destruct (Z.gtb_spec (d * 2) (10 * (1000 * (1000000 * 1)))).
  - rewrite Z.min_r by lia. reflexivity.
  - rewrite Z.quot_mul by lia. lia.
Qed.

(** ** Runs of polls *)

Lemma polls_chain (I : Client -> World -> Prop) (R : Client -> Client -> Prop) :
  (forall c w, I c w ->
     exists c' w', exec HandleStatusRequest c w = Ok tt c' w' /\
                   I c' w' /\ R c c') ->
  forall n c w, I c w ->
    exists cs c' w',
      exec (polls n) c w = Ok cs c' w' /\ length cs = n /\
      chain R c cs /\ I c' w'.
Proof.
  intros Hstep. induction n as [|n IH]; intros c w HI.
  - exists [], c, w. cbn. auto.
  - destruct (Hstep c w HI) as (c1 & w1 & He & HI1 & HR).
    destruct (IH c1 w1 HI1) as (cs & c' & w' & Hes & Hlen & Hch & HI').
    exists (c1 :: cs), c', w'. rewrite exec_polls_S, He, Hes. cbn.
    auto.
Qed.

Lemma chain_Forall {A} (R : A -> A -> Prop) (P : A -> Prop) a l :
  (forall x y, R x y -> P y) -> chain R a l -> Forall P l.
Proof.
  intros HRP. revert a. induction l as [|b l IH]; intros a; cbn.
  - constructor.
  - intros [Hab Hl]. constructor; eauto.
Qed.

Lemma chain_lookup {A} (R : A -> A -> Prop) a (l : list A) i x y :
  chain R a l -> l !! i = Some x -> l !! S i = Some y -> R x y.
Proof.
  revert a i. induction l as [|b l IH]; intros a i; cbn; [discriminate|].
  intros [Hab Hl]. destruct i as [|i]; cbn.
  - intros [= ->]. destruct l as [|b' l']; cbn in *; [discriminate|].
    intros [= ->]. apply Hl.
  - intros Hx Hy. eapply IH; eassumption.
Qed.

Lemma fetch_cases c w : failedFetch c w \/ exists s, fetchYields s c w.
Proof.
  unfold failedFetch, fetchYields.
  destruct (urlParses w _); [|auto].
  destruct (upstream w (fetches w)) as [| |code body]; auto.
  destruct (Z.eq_dec code 200) as [->|]; [|auto].
  destruct body; eauto.
Qed.

Lemma started_delaysInRange c w c0 w0 :
  exec startSequence c w = Ok tt c0 w0 ->
  delaysInRange c -> delaysInRange c0.
Proof.
  intros Hstart (Hm & Hi & Hx & Hd).
  destruct (pending c) eqn:Hp.
  - rewrite exec_startSequence_active in Hstart by assumption.
    injection Hstart as <- <-. repeat split; assumption || lia.
  - rewrite exec_startSequence_idle in Hstart by assumption.
    injection Hstart as <- <-. unfold delaysInRange; cbn.
    rewrite Hi. unfold Second, Millisecond, Nanosecond in *.
    repeat split; try assumption; lia.
Qed.

Lemma startSequence_total c w :
  exists c0 w0, exec startSequence c w = Ok tt c0 w0.
Proof.
  destruct (pending c) eqn:Hp.
  - rewrite exec_startSequence_active by assumption. eauto.
  - rewrite exec_startSequence_idle by assumption. eauto.
Qed.

Lemma default_delay_step c w :
  mu c = false -> pending c = true ->
  initialDelay c = 500 * Millisecond -> maxDelay c = 10 * Second ->
  0 <= delay c < 10 * Second ->
  nextRequest c <= clock w (ticks w) ->
  fetchYields "pending" c w ->
  exists c' w',
    exec HandleStatusRequest c w = Ok tt c' w' /\
    mu c' = false /\ pending c' = true /\
    initialDelay c' = initialDelay c /\ maxDelay c' = maxDelay c /\
    maxRetries c' = maxRetries c /\ BaseURL c' = BaseURL c /\
    attempt c' = wrap64 (attempt c + 1) /\
    upstream w' = upstream w /\ urlParses w' = urlParses w /\
    fetches w' = S (fetches w) /\
    let base := cappedDelay (500 * Millisecond) (10 * Second) (delay c) in
    base `quot` 2 <= delay c' < base.
Proof.
  intros Hm Hp Hi Hx Hd Hdue Hy.
  pose proof (poll_pending c w Hm Hp Hdue Hy) as He. cbn zeta in He.
  rewrite Hi, Hx in He.
  assert (0 <= delay c < 2 ^ 62) as Hd' by
    (unfold Second, Millisecond, Nanosecond in Hd; lia).
  pose proof (cappedDelay_default (delay c) Hd') as Hb.
  set (base := cappedDelay _ _ _) in *.
  pose proof (quot2_bounds base ltac:(lia)).
  destruct (Z.leb_spec (base `quot` 2) 0); [lia|].
  do 2 eexists. split; [exact He|]. cbn.
  repeat split; try assumption;
    apply (jittered_range base);
    unfold Second, Millisecond, Nanosecond in Hb; lia.
Qed.

Lemma default_poll_returns c w :
  delaysInRange c ->
  exists c' w',
    exec HandleStatusRequest c w = Ok tt c' w' /\ delaysInRange c'.
Proof.
  intros HJ.
  destruct (startSequence_total c w) as (c0 & w0 & Hstart).
  pose proof (started_delaysInRange _ _ _ _ Hstart HJ) as (Hm0 & Hi & Hx & Hd).
  destruct (started_active c w c0 w0 (proj1 HJ) Hstart) as (_ & Hp0 & _ & ->).
  destruct (Z.lt_ge_cases (clock w0 (ticks w0)) (nextRequest c0)) as [Hlt|Hdue].
  { rewrite poll_cache_hit by assumption. do 2 eexists.
    split; [reflexivity|]. unfold delaysInRange; tauto. }
  destruct (fetch_cases c0 w0) as [Hfail|[s Hy]].
  - destruct (poll_failed c0 w0 Hm0 Hp0 Hdue Hfail) as (e & He).
    cbn zeta in He. rewrite He.
    destruct (_ <=? _); do 2 eexists; (split; [reflexivity|]);
      unfold delaysInRange; cbn; tauto.
  - destruct (String.eqb_spec s "pending") as [->|Hs].
    + destruct (default_delay_step c0 w0 Hm0 Hp0 Hi Hx Hd Hdue Hy)
        as (c' & w' & He & Hm' & _ & Hi' & Hx' & _ & _ & _ & _ & _ & _ & Hr).
      exists c', w'. split; [exact He|].
      cbn zeta in Hr.
      assert (0 <= delay c0 < 2 ^ 62) as Hd' by
        (unfold Second, Millisecond, Nanosecond in Hd; lia).
      pose proof (cappedDelay_default (delay c0) Hd') as Hb.
      pose proof (quot2_bounds _ ltac:(apply Z.le_trans with 2;
                                        [lia|apply Hb])).
      repeat split; try congruence; lia.
    + rewrite (poll_terminal s c0 w0 Hm0 Hp0 Hdue Hy Hs).
      do 2 eexists. split; [reflexivity|]. unfold delaysInRange; cbn; tauto.
Qed.

(** C9. [nextDelay] hands half the capped delay to [rand.Int63n], which
    panics unless its argument is positive: [nextDelay] returns when the
    capped delay is at least 2ns and panics when it is below.  Under the
    default delays the capped delay is at least 2ns for every delay from
    0 up, and no run of polls ever panics. *)
Theorem nextDelay_panics_below_2ns (c : Client) (w : World)
    (current : Duration) :
  let base := cappedDelay (initialDelay c) (maxDelay c) current in
  (2 <= base -> exists d w', exec (nextDelay current) c w = Ok d c w') /\
  (base < 2 -> exec (nextDelay current) c w = Panic c w) /\
  (initialDelay c = 500 * Millisecond -> maxDelay c = 10 * Second ->
   0 <= current < 2 ^ 62 -> 2 <= base) /\
  (delaysInRange c ->
   forall n, exists cs c' w', exec (polls n) c w = Ok cs c' w').
Proof.
  intros base. repeat split.
  - intros Hb.
    destruct (nextDelay_upper_half current c w Hb) as (d & w' & He & _).
    eauto.
  - intros Hb. rewrite exec_nextDelay. fold base.
    pose proof (quot2_nonpos base Hb).
    destruct (Z.leb_spec (base `quot` 2) 0); [reflexivity|lia].
  - intros Hi Hx Hc. unfold base. rewrite Hi, Hx.
    apply cappedDelay_default. exact Hc.
  - intros HJ n.
    destruct (polls_chain (fun c _ => delaysInRange c) (fun _ _ => True))
      with (n := n) (c := c) (w := w) as (cs & c' & w' & He & _).
    + intros c1 w1 H1.
      destruct (default_poll_returns c1 w1 H1) as (c2 & w2 & He & H2).
      eauto.
    + exact HJ.
    + eauto.
Qed.

(** What one poll does to the delay while the server says "pending". *)
Lemma pending_poll_delays c w :
  mu c = false ->
  initialDelay c = 500 * Millisecond -> maxDelay c = 10 * Second ->
  serverPending c w ->
  (pending c = true -> 500 * Millisecond <= delay c < 10 * Second) ->
  exists c' w',
    exec HandleStatusRequest c w = Ok tt c' w' /\
    (mu c' = false /\ initialDelay c' = 500 * Millisecond /\
     maxDelay c' = 10 * Second /\ serverPending c' w') /\
    pending c' = true /\
    500 * Millisecond <= delay c' < 10 * Second /\
    (pending c = true -> Z.min (delay c) (5 * Second) <= delay c').
Proof.
  intros Hm Hi Hx [Hurl Hup] Hd.
  destruct (startSequence_total c w) as (c0 & w0 & Hstart).
  pose proof (startSequence_frame _ _ _ _ Hstart)
    as (Hp0 & Hm0 & HB & _ & Hx0 & Hi0 & Hu0 & Hf0 & Hurl0 & _).
  rewrite Hm in Hm0. rewrite Hx in Hx0. rewrite Hi in Hi0.
  assert (500 * Millisecond <= delay c0 < 10 * Second /\
          (pending c = true -> delay c0 = delay c)) as [Hd0 Hsame].
  { destruct (pending c) eqn:Hp.
    - rewrite exec_startSequence_active in Hstart by assumption.
      injection Hstart as <- <-. auto.
    - rewrite exec_startSequence_idle in Hstart by assumption.
      injection Hstart as <- <-. cbn. rewrite Hi.
      unfold Second, Millisecond, Nanosecond. split; [lia|discriminate]. }
  destruct (started_active c w c0 w0 Hm Hstart) as (_ & _ & _ & ->).
  destruct (Z.lt_ge_cases (clock w0 (ticks w0)) (nextRequest c0)) as [Hlt|Hdue].
  { rewrite poll_cache_hit by assumption. do 2 eexists.
    split; [reflexivity|]. unfold serverPending; cbn.
    rewrite HB, Hurl0, Hu0. repeat split; try assumption; try lia.
    intros Hp. rewrite (Hsame Hp). lia. }
  assert (fetchYields "pending" c0 w0) as Hy.
  { split; [rewrite HB, Hurl0; exact Hurl|rewrite Hu0; apply Hup]. }
  destruct (default_delay_step c0 w0 Hm0 Hp0 Hi0 Hx0 ltac:(
              unfold Second, Millisecond, Nanosecond in *; lia) Hdue Hy)
    as (c' & w' & He & Hm' & Hp' & Hi' & Hx' & _ & HB' & _ & Hu' & Hurl' & _ & Hr).
  cbn zeta in Hr. rewrite halved_capped_delay in Hr by assumption.
  pose proof (cappedDelay_default (delay c0) ltac:(
                unfold Second, Millisecond, Nanosecond in *; lia)) as Hb.
  exists c', w'. split; [exact He|].
  split; [|split; [assumption|split]].
  - unfold serverPending. rewrite HB', HB, Hurl', Hurl0, Hu', Hu0.
    repeat split; try congruence; assumption.
  - unfold Second, Millisecond, Nanosecond in *. lia.
  - intros Hp. rewrite <- (Hsame Hp). lia.
Qed.

(** C6, as the code has it.  With the default delays (500ms, 10s) and a
    server that always answers "pending", every poll returns and leaves
    a delay in [500ms, 10s); from one poll to the next the delay does not
    decrease as long as it is at most 5s (its double within [maxDelay]),
    and once above 5s it stays at or above 5s. *)
Theorem pending_run_delays (baseURL : string) (logger : log_Logger)
    (w : World) (n : nat) :
  serverPending (NewClient baseURL logger) w ->
  exists cs c' w',
    exec (polls n) (NewClient baseURL logger) w = Ok cs c' w' /\
    length cs = n /\
    Forall (fun c => 500 * Millisecond <= delay c < 10 * Second) cs /\
    forall i c1 c2, cs !! i = Some c1 -> cs !! S i = Some c2 ->
      (delay c1 <= 5 * Second -> delay c1 <= delay c2) /\
      (5 * Second <= delay c1 -> 5 * Second <= delay c2).
Proof.
  intros Hsp.
  set (I := fun (c : Client) (w : World) =>
    (mu c = false /\ initialDelay c = 500 * Millisecond /\
     maxDelay c = 10 * Second /\ serverPending c w) /\
    (pending c = true -> 500 * Millisecond <= delay c < 10 * Second)).
  set (R := fun (c c' : Client) =>
    pending c' = true /\
    500 * Millisecond <= delay c' < 10 * Second /\
    (pending c = true -> Z.min (delay c) (5 * Second) <= delay c')).
  destruct (polls_chain I R) with (n := n) (c := NewClient baseURL logger)
    (w := w) as (cs & c' & w' & He & Hlen & Hch & _).
  - intros c1 w1 [(Hm & Hi & Hx & Hs) Hd].
    destruct (pending_poll_delays c1 w1 Hm Hi Hx Hs Hd)
      as (c2 & w2 & He & HI & Hp & Hd2 & Hstep).
    exists c2, w2. unfold I, R. auto 10.
  - unfold I. cbn. repeat split; try assumption; try apply Hsp.
    all: discriminate.
  - exists cs, c', w'. split; [exact He|]. split; [exact Hlen|]. split.
    + eapply chain_Forall; [|exact Hch]. intros x y (_ & Hy & _). exact Hy.
    + intros i c1 c2 H1 H2.
      assert (pending c1 = true) as Hp1.
      { destruct i as [|i].
        - destruct cs as [|x cs]; [discriminate|].
          cbn in H1. injection H1 as ->. apply Hch.
        - destruct (lookup_lt_is_Some_2 cs i) as [c0 H0].
          { apply lookup_lt_Some in H1. lia. }
          apply (chain_lookup R _ cs i c0 c1 Hch H0 H1). }
      pose proof (chain_lookup R _ cs i c1 c2 Hch H1 H2) as (_ & _ & Hstep).
      specialize (Hstep Hp1). lia.
Qed.

(** What one poll does to [attempt] while every exchange fails. *)
Lemma failing_poll_attempts c w :
  mu c = false -> 1 <= maxRetries c < 2 ^ 62 -> serverDown w ->
  0 <= attempt c <= maxRetries c ->
  (pending c = true -> attempt c < maxRetries c) ->
  exists c' w',
    exec HandleStatusRequest c w = Ok tt c' w' /\
    mu c' = false /\ maxRetries c' = maxRetries c /\ serverDown w' /\
    0 <= attempt c' <= maxRetries c' /\
    (pending c' = true -> attempt c' < maxRetries c').
Proof.
  intros Hm HR Hdown Ha Hlt.
  destruct (startSequence_total c w) as (c0 & w0 & Hstart).
  pose proof (startSequence_frame _ _ _ _ Hstart)
    as (Hp0 & Hm0 & _ & HR0 & _ & _ & Hu0 & _).
  rewrite Hm in Hm0.
  assert (0 <= attempt c0 < maxRetries c0) as Ha0.
  { destruct (pending c) eqn:Hp.
    - rewrite exec_startSequence_active in Hstart by assumption.
      injection Hstart as <- <-. specialize (Hlt eq_refl). lia.
    - rewrite exec_startSequence_idle in Hstart by assumption.
      injection Hstart as <- <-. cbn. lia. }
  destruct (started_active c w c0 w0 Hm Hstart) as (_ & _ & _ & ->).
  destruct (Z.lt_ge_cases (clock w0 (ticks w0)) (nextRequest c0)) as [Hlt0|Hdue].
  { rewrite poll_cache_hit by assumption. do 2 eexists.
    split; [reflexivity|]. unfold serverDown; cbn. rewrite Hu0.
    repeat split; try assumption; lia. }
  assert (failedFetch c0 w0) as Hfail.
  { right. rewrite Hu0. apply Hdown. }
  destruct (poll_failed c0 w0 Hm0 Hp0 Hdue Hfail) as (e & He).
  cbn zeta in He. rewrite He. rewrite wrap64_small by lia.
  assert (forall v, upstream (afterFetch c0 v) = upstream v) as Hup.
  { intros v. unfold afterFetch. destruct (urlParses v _); reflexivity. }
  destruct (Z.leb_spec (maxRetries c0) (attempt c0 + 1));
    do 2 eexists; (split; [reflexivity|]); unfold serverDown; cbn;
    rewrite Hup, Hu0; repeat split; try assumption; try lia;
    discriminate.
Qed.

(** C1, as the code has it.  A request that fails once [attempt] has
    reached [maxRetries] ends the sequence ([pending] false) and writes
    exactly one response, the 500 error; [status] keeps its last known
    value.  [attempt] is compared with [maxRetries] only then: over
    polls whose exchanges all fail it never exceeds [maxRetries]. *)
Theorem retry_ceiling_ends_sequence (c : Client) (w : World) :
  mu c = false ->
  (forall c0 w0,
     exec startSequence c w = Ok tt c0 w0 ->
     nextRequest c0 <= clock w0 (ticks w0) ->
     failedFetch c0 w0 ->
     maxRetries c0 <= wrap64 (attempt c0 + 1) ->
     exists c' w',
       exec HandleStatusRequest c w = Ok tt c' w' /\
       pending c' = false /\ status c' = status c0 /\
       attempt c' = wrap64 (attempt c0 + 1) /\
       written w' = written w ++ [PlainText 500 "Max retries reached"]) /\
  (serverDown w -> 1 <= maxRetries c < 2 ^ 62 ->
   0 <= attempt c <= maxRetries c ->
   (pending c = true -> attempt c < maxRetries c) ->
   forall n, exists cs c' w',
     exec (polls n) c w = Ok cs c' w' /\ length cs = n /\
     Forall (fun c' => attempt c' <= maxRetries c') cs).
Proof.
  intros Hm. split.
  - intros c0 w0 Hstart Hdue Hfail Hge.
    destruct (failed_fetch_at_ceiling c w c0 w0 Hm Hstart Hdue Hfail Hge)
      as (c' & w' & He & Hp & _ & Hs & _ & _ & Ha & Hw).
    exists c', w'. auto.
  - intros Hdown HR Ha Hlt n.
    set (I := fun (c1 : Client) (w1 : World) =>
      mu c1 = false /\ 1 <= maxRetries c1 < 2 ^ 62 /\ serverDown w1 /\
      0 <= attempt c1 <= maxRetries c1 /\
      (pending c1 = true -> attempt c1 < maxRetries c1)).
    destruct (polls_chain I (fun _ c2 => attempt c2 <= maxRetries c2))
      with (n := n) (c := c) (w := w) as (cs & c' & w' & He & Hlen & Hch & _).
    + intros c1 w1 (Hm1 & HR1 & Hd1 & Ha1 & Hlt1).
      destruct (failing_poll_attempts c1 w1 Hm1 HR1 Hd1 Ha1 Hlt1)
        as (c2 & w2 & He & Hm2 & HR2 & Hd2 & Ha2 & Hlt2).
      exists c2, w2. unfold I. rewrite HR2 in Ha2, Hlt2 |- *.
      repeat split; try assumption; lia.
    + unfold I. auto.
    + exists cs, c', w'. split; [exact He|]. split; [exact Hlen|].
      eapply chain_Forall; [|exact Hch]. auto.
Qed.

(** ** Concurrent requests: the mutex *)

Lemma count_insert P p : forall i g old,
  p !! i = Some old ->
  (count P (<[i := g]> p) + (if P old then 1 else 0) =
   count P p + (if P g then 1 else 0))%nat.
Proof.
  induction p as [|h p IH]; intros [|i] g old; cbn; try discriminate.
  - intros [= ->]. destruct (P g), (P old); lia.
  - intros Hi. specialize (IH i g old Hi).
    rewrite <- !Nat.add_assoc. f_equal. exact IH.
Qed.

Lemma count_le_length P p : (count P p <= length p)%nat.
Proof. induction p as [|h p IH]; cbn; [lia|]. destruct (P h); lia. Qed.

Lemma Forall_insert_pool (Q : Goroutine -> Prop) p i g :
  Forall Q p -> Q g -> Forall Q (<[i := g]> p).
Proof.
  intros Hp Hg. revert i. induction Hp as [|h p Hh Hp IH]; intros [|i]; cbn;
    constructor; auto.
Qed.

Ltac split_path :=
  repeat (cbn;
    match goal with
    | H : mu _ = _ |- _ => rewrite H
    | |- context [if ?b then _ else _] => destruct b eqn:?
    | |- context [match ?x with TransportError => _ | _ => _ end] =>
        destruct x
    | |- context [match ?x with Undecodable => _ | _ => _ end] => destruct x
    end).

(** The handler first waits for the mutex; what follows takes it, and
    releases it on every way out. *)
Lemma handler_waits_for_lock :
  exists k0, (forall c w, HandleStatusRequest c w = Locking c w k0) /\
             entering k0.
Proof.
  eexists. split.
  - intros c w. munfold. cbn. reflexivity.
  - intros c w Hm. split_path; unfold mret, M_ret; cbn; auto.
    all: try (repeat split; try reflexivity).
    all: intros x c2 w2 Hm2; split_path; unfold mret, M_ret; cbn; auto.
Qed.

Lemma install_pool_length i o s :
  length (pool (install i o s)) = length (pool s).
Proof. destruct o; cbn; apply length_insert. Qed.

Lemma advance_pool_length i s s' :
  advance i s = Some s' -> length (pool s') = length (pool s).
Proof.
  unfold advance. destruct (pool s !! i) as [[|k|k| |]|]; try discriminate.
  - intros [= <-].
    exact (install_pool_length i (HandleStatusRequest (shared s) (env s)) s).
  - destruct (mu (shared s)); [discriminate|].
    intros [= <-]. exact (install_pool_length i (k (shared s) (env s)) s).
  - intros [= <-]. exact (install_pool_length i _ s).
Qed.

Lemma lockDiscipline_step base i s s' :
  lockDiscipline base s -> advance i s = Some s' -> lockDiscipline base s'.
Proof.
  intros (Hall & Hfl & Hfe). unfold advance.
  destruct (pool s !! i) as [g|] eqn:Hi; [|discriminate].
  pose proof (Forall_lookup_1 _ _ _ _ Hall Hi) as Hg.
  pose proof (count_insert isInFlight (pool s) i) as Hci.
  pose proof (count_insert isFinished (pool s) i) as Hcf.
  destruct g as [|k|k| |]; try discriminate.
  - (* enters the handler: waits for the mutex *)
    destruct handler_waits_for_lock as (k0 & Hk0 & Hent).
    rewrite Hk0. intros [= <-]. cbn.
    specialize (Hci (AtLock k0) _ Hi). specialize (Hcf (AtLock k0) _ Hi).
    cbn in Hci, Hcf. unfold lockDiscipline, inFlight, finished in *. cbn.
    split; [apply Forall_insert_pool; assumption|].
    split; [rewrite <- Hfl|]; lia.
  - (* takes the mutex *)
    destruct (mu (shared s)) eqn:Hmu; [discriminate|].
    intros [= <-]. cbn in Hg. specialize (Hg (shared s) (env s) Hmu).
    unfold lockDiscipline, inFlight, finished in *.
    destruct (k (shared s) (env s)) as [[] c' w'|c' w'|c' w' k'|c' w' k'];
      cbn; try contradiction.
    + destruct Hg as [-> Hf].
      specialize (Hci Returned _ Hi). specialize (Hcf Returned _ Hi).
      cbn in Hci, Hcf.
      split; [apply Forall_insert_pool; [assumption|exact I]|]. lia.
    + destruct Hg as [-> Hf].
      specialize (Hci Crashed _ Hi). specialize (Hcf Crashed _ Hi).
      cbn in Hci, Hcf.
      split; [apply Forall_insert_pool; [assumption|exact I]|]. lia.
    + destruct Hg as (-> & Hf & Hcrit).
      specialize (Hci (InFlight k') _ Hi). specialize (Hcf (InFlight k') _ Hi).
      cbn in Hci, Hcf.
      split; [apply Forall_insert_pool; assumption|]. lia.
  - (* gets the server's answer *)
    assert (mu (shared s) = true) as Hmu.
    { destruct (mu (shared s)); [reflexivity|].
      specialize (Hci Arrived _ Hi). cbn in Hci.
      unfold inFlight in Hfl. lia. }
    rewrite Hmu in Hfl.
    intros [= <-]. cbn in Hg.
    specialize (Hg (upstream (env s) (fetches (env s))) (shared s)
                  (fetched (env s)) Hmu).
    unfold lockDiscipline, inFlight, finished in *.
    destruct (k _ (shared s) (fetched (env s)))
      as [[] c' w'|c' w'|c' w' k'|c' w' k']; cbn; try contradiction.
    + destruct Hg as [-> Hf]. cbn in Hf.
      specialize (Hci Returned _ Hi). specialize (Hcf Returned _ Hi).
      cbn in Hci, Hcf.
      split; [apply Forall_insert_pool; [assumption|exact I]|]. lia.
    + destruct Hg as [-> Hf]. cbn in Hf.
      specialize (Hci Crashed _ Hi). specialize (Hcf Crashed _ Hi).
      cbn in Hci, Hcf.
      split; [apply Forall_insert_pool; [assumption|exact I]|]. lia.
Qed.

Lemma count_replicate_Arrived P K :
  P Arrived = false -> count P (replicate K Arrived) = 0%nat.
Proof. intros HP. induction K as [|K IH]; cbn; [|rewrite HP]; auto. Qed.

Lemma lockDiscipline_reaches K c w s :
  mu c = false -> reaches (serve K c w) s ->
  lockDiscipline (fetches w) s /\ length (pool s) = K.
Proof.
  intros Hm Hr. induction Hr as [|s1 s2 Hr [IH Hlen] Hstep].
  - split; [|apply length_replicate].
    unfold lockDiscipline, inFlight, finished. cbn. rewrite Hm.
    rewrite !count_replicate_Arrived by reflexivity.
    split; [|split; lia]. apply Forall_replicate. exact I.
  - destruct Hstep as [i s1 s2 Hadv]. split.
    + eapply lockDiscipline_step; eassumption.
    + rewrite (advance_pool_length _ _ _ Hadv). exact Hlen.
Qed.

(** ** Concurrent requests are served one after the other *)

Lemma polls_snoc n : forall c w,
  exec (polls (S n)) c w =
  match exec (polls n) c w with
  | Ok cs c1 w1 =>
      match exec HandleStatusRequest c1 w1 with
      | Ok _ c2 w2 => Ok (cs ++ [c2]) c2 w2
      | Panic c2 w2 => Panic c2 w2
      | Deadlock c2 w2 => Deadlock c2 w2
      end
  | Panic c1 w1 => Panic c1 w1
  | Deadlock c1 w1 => Deadlock c1 w1
  end.
Proof.
  induction n as [|n IH]; intros c w.
  - rewrite exec_polls_S. cbn.
    destruct (exec HandleStatusRequest c w); reflexivity.
  - rewrite exec_polls_S. rewrite (exec_polls_S n c w).
    destruct (exec HandleStatusRequest c w) as [[] c1 w1|c1 w1|c1 w1];
      try reflexivity.
    rewrite IH.
    destruct (exec (polls n) c1 w1) as [cs c2 w2|c2 w2|c2 w2];
      try reflexivity.
    destruct (exec HandleStatusRequest c2 w2); reflexivity.
Qed.

Lemma polls_prefix K c w cs c' w' :
  exec (polls K) c w = Ok cs c' w' ->
  forall j, (j <= K)%nat -> exists csj cj wj, exec (polls j) c w = Ok csj cj wj.
Proof.
  revert cs c' w'. induction K as [|K IH]; intros cs c' w' He j Hj.
  - assert (j = O) as -> by lia. eauto.
  - destruct (decide (j = S K)) as [->|Hne]; [eauto|].
    rewrite polls_snoc in He.
    destruct (exec (polls K) c w) as [cs1 c1 w1|c1 w1|c1 w1] eqn:HeK;
      try discriminate.
    eapply IH; [reflexivity|lia].
Qed.

Lemma count_lookup P p i g :
  p !! i = Some g -> P g = true -> (1 <= count P p)%nat.
Proof.
  revert i. induction p as [|h p IH]; intros [|i]; cbn; try discriminate.
  - intros [= ->] ->. lia.
  - intros Hi Hg. specialize (IH i Hi Hg). destruct (P h); lia.
Qed.

Lemma serialized_step K c w cs c' w' base i s s' :
  exec (polls K) c w = Ok cs c' w' ->
  length (pool s) = K ->
  lockDiscipline base s -> serialized c w s ->
  advance i s = Some s' -> serialized c w s'.
Proof.
  intros HK Hlen (Hall & Hfl & _) (csj & cj & wj & Hej & Hres & Hst) Hadv.
  pose proof (advance_pool_length _ _ _ Hadv) as Hlen'.
  pose proof (count_le_length isFinished (pool s')) as Hfin'.
  rewrite Hlen', Hlen in Hfin'. fold (finished (pool s')) in Hfin'.
  revert Hadv Hfin'. unfold advance.
  destruct (pool s !! i) as [g|] eqn:Hi; [|discriminate].
  pose proof (Forall_lookup_1 _ _ _ _ Hall Hi) as Hg.
  pose proof (count_insert isFinished (pool s) i) as Hcf.
  pose proof (lookup_lt_Some _ _ _ Hi) as Hlt.
  destruct g as [|k|k| |]; try discriminate.
  - (* enters the handler *)
    destruct handler_waits_for_lock as (k0 & Hk0 & Hent).
    rewrite Hk0. intros [= <-] _. cbn.
    specialize (Hcf (AtLock k0) _ Hi). cbn in Hcf.
    unfold serialized, finished in *. cbn.
    replace (count isFinished (<[i:=AtLock k0]> (pool s)))
      with (count isFinished (pool s)) by lia.
    exists csj, cj, wj. split; [exact Hej|]. split.
    + intros i' k'. destruct (decide (i = i')) as [<-|Hne].
      * rewrite list_lookup_insert_eq by exact Hlt. intros [= <-].
        intros c1 w1 Hm1. unfold exec. rewrite Hk0. cbn. rewrite Hm1.
        reflexivity.
      * rewrite list_lookup_insert_ne by exact Hne. apply Hres.
    + destruct (mu (shared s)); [|exact Hst].
      intros i' k'. destruct (decide (i = i')) as [<-|Hne].
      * rewrite list_lookup_insert_eq by exact Hlt. discriminate.
      * rewrite list_lookup_insert_ne by exact Hne. apply Hst.
  - (* takes the mutex *)
    destruct (mu (shared s)) eqn:Hmu; [discriminate|].
    destruct Hst as [Hc Hw].
    pose proof (Hres i k Hi (shared s) (env s) Hmu) as Hrun.
    cbn in Hg. specialize (Hg (shared s) (env s) Hmu).
    rewrite Hc, Hw in *.
    unfold serialized, finished in *.
    destruct (k cj wj) as [[] c1 w1|c1 w1|c1 w1 k1|c1 w1 k1];
      try contradiction; intros [= <-]; cbn.
    + intros _. destruct Hg as [Hm1 _]. rewrite Hm1.
      specialize (Hcf Returned _ Hi). cbn in Hcf.
      replace (count isFinished (<[i:=Returned]> (pool s)))
        with (S (count isFinished (pool s))) by lia.
      assert (exec (polls (S (count isFinished (pool s)))) c w =
              Ok (csj ++ [c1]) c1 w1) as He1.
      { rewrite polls_snoc, Hej. cbn in Hrun. rewrite <- Hrun. reflexivity. }
      do 3 eexists. split; [exact He1|]. split; [|auto].
      intros i' k'. destruct (decide (i = i')) as [<-|Hne].
      * rewrite list_lookup_insert_eq by exact Hlt. discriminate.
      * rewrite list_lookup_insert_ne by exact Hne. apply Hres.
    + intros Hfin'. exfalso.
      specialize (Hcf Crashed _ Hi). cbn in Hcf.
      destruct (polls_prefix _ _ _ _ _ _ HK
                  (S (count isFinished (pool s))) ltac:(lia))
        as (cs2 & c2 & w2 & He2).
      rewrite polls_snoc, Hej in He2. cbn in Hrun. rewrite <- Hrun in He2.
      discriminate.
    + intros _. destruct Hg as (Hm1 & _ & _). rewrite Hm1.
      specialize (Hcf (InFlight k1) _ Hi). cbn in Hcf.
      replace (count isFinished (<[i:=InFlight k1]> (pool s)))
        with (count isFinished (pool s)) by lia.
      exists csj, cj, wj. split; [exact Hej|]. split.
      * intros i' k'. destruct (decide (i = i')) as [<-|Hne].
        -- rewrite list_lookup_insert_eq by exact Hlt. discriminate.
        -- rewrite list_lookup_insert_ne by exact Hne. apply Hres.
      * intros i' k'. destruct (decide (i = i')) as [<-|Hne].
        -- rewrite list_lookup_insert_eq by exact Hlt. intros [= <-].
           cbn in Hrun. exact Hrun.
        -- rewrite list_lookup_insert_ne by exact Hne. intros Hi'.
           pose proof (count_lookup isInFlight _ _ _ Hi' eq_refl).
           unfold inFlight in Hfl. lia.
  - (* gets the server's answer *)
    assert (mu (shared s) = true) as Hmu.
    { destruct (mu (shared s)); [reflexivity|].
      pose proof (count_lookup isInFlight _ _ _ Hi eq_refl).
      unfold inFlight in Hfl. lia. }
    rewrite Hmu in Hst. specialize (Hst i k Hi).
    cbn in Hg.
    specialize (Hg (upstream (env s) (fetches (env s))) (shared s)
                  (fetched (env s)) Hmu).
    unfold serialized, finished in *.
    destruct (k _ (shared s) (fetched (env s)))
      as [[] c1 w1|c1 w1|c1 w1 k1|c1 w1 k1];
      try contradiction; intros [= <-]; cbn.
    + intros _. destruct Hg as [Hm1 _]. rewrite Hm1.
      specialize (Hcf Returned _ Hi). cbn in Hcf.
      replace (count isFinished (<[i:=Returned]> (pool s)))
        with (S (count isFinished (pool s))) by lia.
      assert (exec (polls (S (count isFinished (pool s)))) c w =
              Ok (csj ++ [c1]) c1 w1) as He1.
      { rewrite polls_snoc, Hej. cbn in Hst. rewrite <- Hst. reflexivity. }
      do 3 eexists. split; [exact He1|]. split; [|auto].
      intros i' k'. destruct (decide (i = i')) as [<-|Hne].
      * rewrite list_lookup_insert_eq by exact Hlt. discriminate.
      * rewrite list_lookup_insert_ne by exact Hne. apply Hres.
    + intros Hfin'. exfalso.
      specialize (Hcf Crashed _ Hi). cbn in Hcf.
      destruct (polls_prefix _ _ _ _ _ _ HK
                  (S (count isFinished (pool s))) ltac:(lia))
        as (cs2 & c2 & w2 & He2).
      rewrite polls_snoc, Hej in He2. cbn in Hst. rewrite <- Hst in He2.
      discriminate.
Qed.

Lemma serialized_reaches K c w cs c' w' s :
  mu c = false ->
  exec (polls K) c w = Ok cs c' w' ->
  reaches (serve K c w) s -> serialized c w s.
Proof.
  intros Hm HK Hr. induction Hr as [|s1 s2 Hr IH Hstep].
  - exists [], c, w. cbn. rewrite Hm.
    unfold finished. rewrite count_replicate_Arrived by reflexivity.
    split; [reflexivity|]. split; [|auto].
    intros i k Hi. apply lookup_replicate in Hi as [? _]. discriminate.
  - destruct (lockDiscipline_reaches K c w s1 Hm Hr) as [Hld Hlen].
    destruct Hstep as [i s1 s2 Hadv].
    eapply serialized_step; eassumption.
Qed.

(** One call of the handler leaves the mutex free and makes at most one
    exchange with the server. *)
Lemma handler_result c w :
  mu c = false ->
  match exec HandleStatusRequest c w with
  | Ok _ c' w' | Panic c' w' =>
      mu c' = false /\ (fetches w <= fetches w' <= S (fetches w))%nat
  | Deadlock _ _ => False
  end.
Proof.
  intros Hm. destruct handler_waits_for_lock as (k0 & Hk0 & Hent).
  unfold exec. rewrite Hk0. cbn. rewrite Hm.
  specialize (Hent c w Hm).
  destruct (k0 c w) as [[] c1 w1|c1 w1|c1 w1 k1|c1 w1 k1]; cbn;
    try contradiction.
  - destruct Hent as [? ->]. split; [assumption|lia].
  - destruct Hent as [? ->]. split; [assumption|lia].
  - destruct Hent as (Hm1 & Hf & Hcrit).
    specialize (Hcrit (upstream w1 (fetches w1)) c1 (fetched w1) Hm1).
    destruct (k1 _ c1 (fetched w1)) as [[] c2 w2|c2 w2|c2 w2 k2|c2 w2 k2]; cbn;
      try contradiction.
    + destruct Hcrit as [? ->]. cbn. split; [assumption|lia].
    + destruct Hcrit as [? ->]. cbn. split; [assumption|lia].
Qed.

Lemma count_disjoint p :
  (count isInFlight p + count isFinished p <= length p)%nat.
Proof.
  induction p as [|g p IH]; cbn; [lia|]. destruct g; cbn; lia.
Qed.

(** C8, as the code has it.  The handler holds the mutex from its first
    line to its return, the exchange with the server included: in every
    state of the server at most one goroutine waits for the server, and
    the mutex is held while it does.  The polls are thereby served one
    after the other, each with at most one exchange: when the mutex is
    free the client and the world are those of a caller polling
    sequentially as often as goroutines have finished.  So [K]
    concurrent polls make at most [K] exchanges, and at most one when
    the first one served leaves a sequence active and the others read the
    clock before its [nextRequest]. *)
Theorem one_fetch_in_flight (K : nat) (c : Client) (w : World) (s : Server) :
  mu c = false ->
  reaches (serve K c w) s ->
  (inFlight (pool s) <= 1)%nat /\
  (inFlight (pool s) = 1%nat -> mu (shared s) = true) /\
  (fetches (env s) <= fetches w + finished (pool s))%nat /\
  (finished (pool s) <= K)%nat /\
  (forall cs c' w',
     exec (polls K) c w = Ok cs c' w' -> mu (shared s) = false ->
     exists csj,
       exec (polls (finished (pool s))) c w = Ok csj (shared s) (env s)) /\
  (forall n c1 w1,
     K = S n ->
     exec HandleStatusRequest c w = Ok tt c1 w1 ->
     pending c1 = true ->
     (forall i, (i < n)%nat -> clock w1 (ticks w1 + i) < nextRequest c1) ->
     finished (pool s) = K ->
     (fetches (env s) <= S (fetches w))%nat).
Proof.
  intros Hm Hr.
  destruct (lockDiscipline_reaches K c w s Hm Hr) as [(Hall & Hfl & Hfe) Hlen].
  pose proof (count_le_length isFinished (pool s)) as Hfin.
  rewrite Hlen in Hfin. fold (finished (pool s)) in Hfin.
  assert (forall cs c' w',
     exec (polls K) c w = Ok cs c' w' -> mu (shared s) = false ->
     exists csj,
       exec (polls (finished (pool s))) c w = Ok csj (shared s) (env s))
    as Hser.
  { intros cs c' w' HK Hmu.
    destruct (serialized_reaches K c w cs c' w' s Hm HK Hr)
      as (csj & cj & wj & Hej & _ & Hst).
    rewrite Hmu in Hst. destruct Hst as [-> ->]. eauto. }
  repeat split.
  - rewrite Hfl. destruct (mu (shared s)); lia.
  - rewrite Hfl. destruct (mu (shared s)); [reflexivity|discriminate].
  - exact Hfe.
  - exact Hfin.
  - exact Hser.
  - intros n c1 w1 -> He1 Hp1 Hwin Hall_done.
    pose proof (handler_result c w Hm) as Hres. rewrite He1 in Hres.
    destruct Hres as [Hm1 Hf1].
    destruct (polls_cache_hits n c1 w1 Hm1 Hp1 Hwin) as (w' & Hen & Hf' & _).
    assert (exec (polls (S n)) c w = Ok (c1 :: replicate n c1) c1 w') as HK.
    { rewrite exec_polls_S, He1, Hen. reflexivity. }
    assert (mu (shared s) = false) as Hmu.
    { destruct (mu (shared s)); [|reflexivity].
      pose proof (count_disjoint (pool s)) as Hd.
      unfold inFlight, finished in *. lia. }
    destruct (Hser _ _ _ HK Hmu) as (csj & Hej).
    rewrite Hall_done, HK in Hej. injection Hej as _ _ <-. lia.
Qed.

(** ** Construction *)

(** C7, as the code has it.  [NewClient] sets [initialDelay] 500ms,
    [maxDelay] 10s, [maxRetries] 20 and [timeout] 5s, whatever its two
    arguments are: the base URL and the logger are all a caller
    chooses. *)
Theorem NewClient_defaults (baseURL : string) (logger : log_Logger) :
  defaultConfig (NewClient baseURL logger) /\
  BaseURL (NewClient baseURL logger) = baseURL /\
  Logger (NewClient baseURL logger) = logger.
Proof. unfold defaultConfig. cbn. auto 10. Qed.

(** Against C7 as stated: no call of [NewClient] yields another
    [initialDelay], [maxDelay], [maxRetries] or [timeout] than another
    call; none of the four can be overridden at construction. *)
Lemma NewClient_takes_no_settings :
  ~ overridable initialDelay /\ ~ overridable maxDelay /\
  ~ overridable maxRetries /\ ~ overridable timeout.
Proof.
  unfold overridable. repeat split; intros (b1 & l1 & b2 & l2 & H);
    apply H; reflexivity.
Qed.

(** ** Concrete runs *)

(** Against C1 as stated.  While the server keeps answering "pending",
    [attempt] passes [maxRetries]: 21 polls, all due, leave [attempt] 21
    over [maxRetries] 20.  And when the 20th failed request in a row
    trips the ceiling, [status] is still "pending", not
    "max-retries-exceeded". *)
Lemma attempt_passes_maxRetries :
  (exists cs c' w',
     exec (polls 21) client0 pendingWorld = Ok cs c' w' /\
     fetches w' = 21%nat /\ pending c' = true /\
     maxRetries c' < attempt c') /\
  (exists cs c' w',
     exec (polls 20) client0 downWorld = Ok cs c' w' /\
     attempt c' = maxRetries c' /\ pending c' = false /\
     last (written w') = Some (PlainText 500 "Max retries reached") /\
     status c' = "pending" /\ status c' <> "max-retries-exceeded").
Proof.
  split.
  - do 3 eexists. split; [vm_compute; reflexivity|].
    cbn. repeat split.
  - do 3 eexists. split; [vm_compute; reflexivity|].
    cbn. repeat split. discriminate.
Qed.

(** Against C6 as stated: 20 polls, all due, with the server always
    answering "pending"; the fourth leaves a delay of 7999999985ns, the
    fifth one of 5s. *)
Lemma jitter_can_shrink_delay :
  exists cs c' w',
    exec (polls 20) client0 dipWorld = Ok cs c' w' /\
    fetches w' = 20%nat /\
    (forall i, upstream dipWorld i = Reply 200 (Decoded "pending")) /\
    delay <$> cs !! 3%nat = Some 7999999985 /\
    delay <$> cs !! 4%nat = Some 5000000000.
Proof.
  do 3 eexists. split; [vm_compute; reflexivity|].
  cbn. repeat split.
Qed.

Lemma reaches_trans s1 s2 s3 :
  reaches s1 s2 -> reaches s2 s3 -> reaches s1 s3.
Proof.
  intros H12 H23. induction H23 as [|s3 s4 H23 IH Hstep]; [exact H12|].
  eapply reaches_step; eassumption.
Qed.

Lemma schedule_reaches l : forall s s',
  schedule l s = Some s' -> reaches s s'.
Proof.
  induction l as [|i l IH]; intros s s'; cbn.
  - intros [= <-]. constructor.
  - destruct (advance i s) as [s1|] eqn:Hadv; [|discriminate].
    intros Hl. eapply reaches_trans; [|apply IH; exact Hl].
    eapply reaches_step; [constructor|]. econstructor. exact Hadv.
Qed.

(** Against C8 as stated: two requests arrive at the fresh client while
    the server is down.  Each goroutine in turn takes the mutex, asks
    the server and fails: two polls, two exchanges. *)
Lemma two_polls_two_fetches :
  exists s,
    schedule [0; 0; 0; 1; 1; 1]%nat (serve 2 client0 downWorld) = Some s /\
    reaches (serve 2 client0 downWorld) s /\
    pool s = [Returned; Returned] /\
    fetches (env s) = 2%nat.
Proof.
  assert (exists s,
    schedule [0; 0; 0; 1; 1; 1]%nat (serve 2 client0 downWorld) = Some s /\
    pool s = [Returned; Returned] /\ fetches (env s) = 2%nat)
    as (s & Hs & Hp & Hf).
  { eexists. split; [vm_compute; reflexivity|]. cbn. split; reflexivity. }
  exists s. split; [exact Hs|]. split; [|split; assumption].
  apply (schedule_reaches _ _ _ Hs).
Qed.

(** ** The theorems at concrete inputs *)

Ltac closed := vm_compute; repeat split; try reflexivity; try discriminate.

Lemma retry_ceiling_ends_sequence_witness :
  mu nearCeiling = false /\
  (exists c' w',
     exec HandleStatusRequest nearCeiling nearCeilingWorld = Ok tt c' w' /\
     pending c' = false /\ status c' = status nearCeiling /\
     attempt c' = wrap64 (attempt nearCeiling + 1) /\
     written w' =
     written nearCeilingWorld ++ [PlainText 500 "Max retries reached"]) /\
  (exists cs c' w',
     exec (polls 25) client0 downWorld = Ok cs c' w' /\ length cs = 25%nat /\
     Forall (fun c' => attempt c' <= maxRetries c') cs).
Proof.
  assert (mu nearCeiling = false) as Hm by closed.
  split; [exact Hm|]. split.
  - apply (proj1 (retry_ceiling_ends_sequence nearCeiling nearCeilingWorld Hm)
             nearCeiling nearCeilingWorld).
    + closed.
    + closed.
    + right. vm_compute. exact I.
    + closed.
  - apply (proj2 (retry_ceiling_ends_sequence client0 downWorld eq_refl)).
    + intros i. exact I.
    + closed.
    + closed.
    + discriminate.
Defined.

Lemma nextDelay_within_base_witness :
  0 <= 3 * Second <= maxDelay client0 /\
  exists d w',
    exec (nextDelay (3 * Second)) client0 pendingWorld = Ok d client0 w' /\
    3 * Second <= d < 6 * Second /\ d < maxDelay client0.
Proof.
  assert (0 <= 3 * Second <= maxDelay client0) as H by closed.
  split; [exact H|].
  exact (nextDelay_within_base "http://localhost:8080" stdLogger pendingWorld
           (3 * Second) H).
Defined.

Lemma failed_fetch_serves_cache_witness :
  mu client0 = false /\
  exec startSequence client0 downWorld =
    Ok tt (startedClient client0 downWorld) (startedWorld client0 downWorld) /\
  failedFetch (startedClient client0 downWorld)
    (startedWorld client0 downWorld) /\
  exists c' w',
    exec HandleStatusRequest client0 downWorld = Ok tt c' w' /\
    status c' = "pending" /\ nextRequest c' = 0 /\
    delay c' = 500 * Millisecond /\ pending c' = true /\
    attempt c' = 1 /\
    written w' = [JsonResult 200 "pending"].
Proof.
  assert (failedFetch (startedClient client0 downWorld)
            (startedWorld client0 downWorld)) as Hf
    by (right; vm_compute; exact I).
  split; [reflexivity|]. split; [closed|]. split; [exact Hf|].
  apply (failed_fetch_serves_cache client0 downWorld
           (startedClient client0 downWorld) (startedWorld client0 downWorld));
    [reflexivity|closed|closed|exact Hf|closed].
Defined.

Lemma cached_window : forall i : nat,
  (i < 4)%nat -> clock cachedWorld (ticks cachedWorld + i) < nextRequest cachedClient.
Proof.
  intros i Hi.
  do 4 (destruct i as [|i]; [vm_compute; reflexivity|]). lia.
Defined.

Lemma cached_poll_leaves_state_witness :
  mu cachedClient = false /\ pending cachedClient = true /\
  (exists w1,
     exec HandleStatusRequest cachedClient cachedWorld = Ok tt cachedClient w1 /\
     fetches w1 = fetches cachedWorld /\
     written w1 = written cachedWorld ++ [JsonResult 200 (status cachedClient)]) /\
  (exists w',
     exec (polls 4) cachedClient cachedWorld =
       Ok (replicate 4 cachedClient) cachedClient w' /\
     fetches w' = fetches cachedWorld /\
     written w' =
     written cachedWorld ++ replicate 4 (JsonResult 200 (status cachedClient))).
Proof.
  assert (mu cachedClient = false) as Hm by closed.
  assert (pending cachedClient = true) as Hp by closed.
  split; [exact Hm|]. split; [exact Hp|].
  exact (cached_poll_leaves_state cachedClient cachedWorld 3 Hm Hp
           cached_window).
Defined.

Lemma terminal_ends_then_restarts_witness :
  mu client0 = false /\
  fetchYields "completed" (startedClient client0 completedWorld)
    (startedWorld client0 completedWorld) /\
  pending client0 = false /\
  (exists c' w',
     exec HandleStatusRequest client0 completedWorld = Ok tt c' w' /\
     status c' = "completed" /\ pending c' = false /\ mu c' = false) /\
  (exists c0 w0,
     exec startSequence client0 completedWorld = Ok tt c0 w0 /\
     pending c0 = true /\ attempt c0 = 0 /\ status c0 = "pending" /\
     delay c0 = initialDelay client0 /\
     nextRequest c0 = clock completedWorld (ticks completedWorld) /\
     exec HandleStatusRequest client0 completedWorld =
     exec HandleStatusRequest c0 w0).
Proof.
  assert (fetchYields "completed" (startedClient client0 completedWorld)
            (startedWorld client0 completedWorld)) as Hy by closed.
  split; [reflexivity|]. split; [exact Hy|]. split; [reflexivity|].
  destruct (terminal_ends_then_restarts client0 completedWorld eq_refl)
    as [H1 H2].
  split.
  - apply (H1 "completed" (startedClient client0 completedWorld)
             (startedWorld client0 completedWorld));
      [closed|closed|exact Hy|left; reflexivity].
  - apply H2. reflexivity.
Defined.

Lemma pending_run_delays_witness :
  serverPending client0 pendingWorld /\
  exists cs c' w',
    exec (polls 20) client0 pendingWorld = Ok cs c' w' /\
    length cs = 20%nat /\
    Forall (fun c => 500 * Millisecond <= delay c < 10 * Second) cs /\
    forall i c1 c2, cs !! i = Some c1 -> cs !! S i = Some c2 ->
      (delay c1 <= 5 * Second -> delay c1 <= delay c2) /\
      (5 * Second <= delay c1 -> 5 * Second <= delay c2).
Proof.
  assert (serverPending client0 pendingWorld) as Hs.
  { split; [reflexivity|]. intros i. reflexivity. }
  split; [exact Hs|].
  exact (pending_run_delays "http://localhost:8080" stdLogger pendingWorld 20
           Hs).
Defined.

Lemma one_fetch_in_flight_witness :
  exists s,
    mu client0 = false /\
    reaches (serve 3 client0 rapidWorld) s /\
    finished (pool s) = 3%nat /\
    (inFlight (pool s) <= 1)%nat /\
    (fetches (env s) <= S (fetches rapidWorld))%nat.
Proof.
  assert (exists s,
    schedule [0; 1; 2; 1; 1; 0; 2]%nat (serve 3 client0 rapidWorld) = Some s /\
    finished (pool s) = 3%nat) as (s & Hs & Hfin).
  { eexists. split; [vm_compute; reflexivity|]. reflexivity. }
  pose proof (schedule_reaches _ _ _ Hs) as Hr.
  destruct (one_fetch_in_flight 3 client0 rapidWorld s eq_refl Hr)
    as (H1 & _ & _ & _ & _ & H6).
  exists s. split; [reflexivity|]. split; [exact Hr|]. split; [exact Hfin|].
  split; [exact H1|].
  apply (H6 2%nat cachedClient cachedWorld); [reflexivity|closed|closed| |exact Hfin].
  intros i Hi. apply cached_window. lia.
Defined.

Lemma nextDelay_panics_below_2ns_witness :
  cappedDelay (initialDelay tinyClient) (maxDelay tinyClient) 0 < 2 /\
  exec (nextDelay 0) tinyClient pendingWorld = Panic tinyClient pendingWorld /\
  2 <= cappedDelay (initialDelay client0) (maxDelay client0) 0 /\
  (exists d w', exec (nextDelay 0) client0 pendingWorld = Ok d client0 w') /\
  delaysInRange client0 /\
  (exists cs c' w', exec (polls 30) client0 dipWorld = Ok cs c' w').
Proof.
  assert (cappedDelay (initialDelay tinyClient) (maxDelay tinyClient) 0 < 2)
    as Hlow by closed.
  assert (2 <= cappedDelay (initialDelay client0) (maxDelay client0) 0)
    as Hhigh by closed.
  assert (delaysInRange client0) as Hd by closed.
  split; [exact Hlow|].
  split; [exact (proj1 (proj2 (nextDelay_panics_below_2ns tinyClient
                                  pendingWorld 0)) Hlow)|].
  split; [exact Hhigh|].
  split; [exact (proj1 (nextDelay_panics_below_2ns client0 pendingWorld 0)
                   Hhigh)|].
  split; [exact Hd|].
  exact (proj2 (proj2 (proj2 (nextDelay_panics_below_2ns client0 dipWorld 0)))
           Hd 30%nat).
Defined.

Lemma any_decoded_result_is_adopted_witness :
  mu client0 = false /\
  fetchYields "" (startedClient client0 emptyResultWorld)
    (startedWorld client0 emptyResultWorld) /\
  exists c' w',
    exec HandleStatusRequest client0 emptyResultWorld = Ok tt c' w' /\
    status c' = "" /\ pending c' = false /\
    written w' = written emptyResultWorld ++ [JsonResult 200 ""].
Proof.
  assert (fetchYields "" (startedClient client0 emptyResultWorld)
            (startedWorld client0 emptyResultWorld)) as Hy by closed.
  split; [reflexivity|]. split; [exact Hy|].
  apply (any_decoded_result_is_adopted "" client0 emptyResultWorld
           (startedClient client0 emptyResultWorld)
           (startedWorld client0 emptyResultWorld));
    [reflexivity|closed|closed|exact Hy|discriminate].
Defined.

(** ** More on the handler *)

Ltac all_paths Hm :=
  munfold; cbn; rewrite Hm; split_path; unfold mret, M_ret; cbn.

(** X1. Whenever the handler returns it has written exactly one
    response: the 200 with the status it leaves in the client, or the
    500 "Max retries reached", and then the sequence is over.  When it
    panics it has written none. *)
Theorem handler_answers_once (c : Client) (w : World) :
  mu c = false ->
  match exec HandleStatusRequest c w with
  | Ok _ c' w' =>
      written w' = written w ++ [JsonResult 200 (status c')] \/
      (written w' = written w ++ [PlainText 500 "Max retries reached"] /\
       pending c' = false)
  | Panic c' w' => written w' = written w
  | Deadlock _ _ => False
  end.
Proof.
  intros Hm. all_paths Hm; auto.
Qed.

(** X2. The handler never changes the settings of the client: base URL,
    logger, HTTP client, [maxDelay], [maxRetries], [initialDelay] and
    [timeout] are after the call what they were before, also when it
    panics. *)
Theorem handler_keeps_settings (c : Client) (w : World) :
  mu c = false ->
  match exec HandleStatusRequest c w with
  | Ok _ c' _ | Panic c' _ => sameSettings c c'
  | Deadlock _ _ => False
  end.
Proof.
  intros Hm. unfold sameSettings. all_paths Hm; auto 10.
Qed.

(** X3. Called while the mutex is held, the handler waits and touches
    nothing.  Called with the mutex free it never waits for ever, makes
    at most one exchange with the server, and leaves the mutex free,
    also when it panics. *)
Theorem handler_locks_and_unlocks (c : Client) (w : World) :
  (mu c = true -> exec HandleStatusRequest c w = Deadlock c w) /\
  (mu c = false ->
   match exec HandleStatusRequest c w with
   | Ok _ c' w' | Panic c' w' =>
       mu c' = false /\ (fetches w <= fetches w' <= S (fetches w))%nat
   | Deadlock _ _ => False
   end).
Proof.
  split.
  - intros Hm. munfold; cbn. rewrite Hm. reflexivity.
  - apply handler_result.
Qed.

Ltac clock_absurd :=
  exfalso;
  match goal with
  | H : (_ <? _) = true |- _ => apply Z.ltb_lt in H; lia
  end.

(** A poll of an active sequence that is due makes a new attempt. *)
Lemma due_poll_attempts c w :
  mu c = false -> pending c = true ->
  nextRequest c <= clock w (ticks w) ->
  match exec HandleStatusRequest c w with
  | Ok _ c' w' | Panic c' w' =>
      attempt c' = wrap64 (attempt c + 1) /\
      (urlParses w (BaseURL c +:+ "/status") = true ->
       fetches w' = S (fetches w))
  | Deadlock _ _ => False
  end.
Proof.
  intros Hm Hp Hdue. munfold; cbn. rewrite Hm; cbn. rewrite Hp; cbn.
  split_path; unfold mret, M_ret; cbn; try clock_absurd;
    (split; [reflexivity|]); intros Hu; try reflexivity;
    rewrite Hu in *; discriminate.
Qed.

(** X4. A request that failed below the retry ceiling is made again by
    the very next poll, however soon that poll comes: with a clock that
    does not go back, the poll after the failure counts a new attempt. *)
Theorem failed_request_is_retried (c : Client) (w : World) c0 w0 :
  mu c = false ->
  exec startSequence c w = Ok tt c0 w0 ->
  nextRequest c0 <= clock w0 (ticks w0) ->
  failedFetch c0 w0 ->
  wrap64 (attempt c0 + 1) < maxRetries c0 ->
  clockMonotone w ->
  exists c1 w1,
    exec HandleStatusRequest c w = Ok tt c1 w1 /\
    match exec HandleStatusRequest c1 w1 with
    | Ok _ c2 _ | Panic c2 _ => attempt c2 = wrap64 (attempt c1 + 1)
    | Deadlock _ _ => False
    end.
Proof.
  intros Hm Hstart Hdue Hfail Hlt Hmono.
  pose proof (startSequence_frame _ _ _ _ Hstart)
    as (_ & _ & _ & _ & _ & _ & _ & _ & _ & _ & _ & Hclk & _).
  destruct (started_active _ _ _ _ Hm Hstart) as (Hm0 & Hp0 & _ & ->).
  destruct (poll_failed c0 w0 Hm0 Hp0 Hdue Hfail) as (e & He).
  cbn zeta in He. rewrite He.
  destruct (Z.leb_spec (maxRetries c0) (wrap64 (attempt c0 + 1))); [lia|].
  do 2 eexists. split; [reflexivity|].
  match goal with
  | |- match exec _ ?c1 ?w1 with _ => _ end =>
      pose proof (due_poll_attempts c1 w1) as Hnext;
      set (r := exec HandleStatusRequest c1 w1) in *
  end.
  cbn in Hnext. specialize (Hnext Hm0 Hp0).
  match type of Hnext with
  | ?P -> _ => assert P as Hdue1
  end.
  { eapply Z.le_trans; [exact Hdue|].
    unfold afterFetch. unfold clockMonotone in Hmono.
    rewrite <- Hclk in Hmono.
    destruct (urlParses w0 _); cbn; apply Hmono; lia. }
  specialize (Hnext Hdue1).
  destruct r; try contradiction; apply Hnext.
Qed.

(** X5. The first poll of a sequence is never answered from the cache:
    when no sequence is active and the clock does not go back between
    its two readings, the handler starts a sequence and asks the server
    in the same call. *)
Theorem new_sequence_asks_at_once (c : Client) (w : World) :
  mu c = false -> pending c = false ->
  clock w (ticks w) <= clock w (S (ticks w)) ->
  match exec HandleStatusRequest c w with
  | Ok _ c' w' | Panic c' w' =>
      attempt c' = 1 /\
      (urlParses w (BaseURL c +:+ "/status") = true ->
       fetches w' = S (fetches w))
  | Deadlock _ _ => False
  end.
Proof.
  intros Hm Hp Hclk.
  rewrite (handler_restart c w _ _ Hm (exec_startSequence_idle c w Hp)).
  match goal with
  | |- match exec _ ?c0 ?w0 with _ => _ end =>
      pose proof (due_poll_attempts c0 w0 Hm eq_refl Hclk) as H
  end.
  destruct (exec HandleStatusRequest _ _); exact H.
Qed.

(** X9. [RetrieveStatus] never panics and never changes the client.  It
    meets the server exactly when the URL parses, returns the empty
    string with every error, and returns a status without error exactly
    when the server replied 200 with a body that decodes. *)
Theorem RetrieveStatus_contract (c : Client) (w : World) :
  exists r w',
    exec RetrieveStatus c w = Ok r c w' /\
    (r.2 <> None -> r.1 = "") /\
    fetches w' =
      (if urlParses w (BaseURL c +:+ "/status") then S (fetches w)
       else fetches w) /\
    written w' = written w /\
    (r.2 = None <-> fetchYields r.1 c w) /\
    (r.2 <> None <-> failedFetch c w).
Proof.
  unfold fetchYields, failedFetch. munfold; cbn.
  destruct (urlParses w _) eqn:Hu; cbn.
  2:{ do 2 eexists. split; [reflexivity|]. cbn.
      repeat split; try discriminate; auto; intros; intuition discriminate. }
  destruct (upstream w (fetches w)) as [| |code body] eqn:Hx; cbn.
  1,2: do 2 eexists; (split; [reflexivity|]); cbn;
       repeat split; try discriminate; auto; intros; intuition discriminate.
  destruct (Z.eqb_spec code 200) as [->|Hc]; cbn.
  - destruct body as [|s]; do 2 eexists; (split; [reflexivity|]); cbn;
      repeat split; try discriminate; auto; intros;
      intuition (discriminate || congruence).
  - do 2 eexists. split; [reflexivity|]. cbn.
    repeat split; try discriminate; auto; intros;
      intuition (discriminate || congruence).
Qed.

(** ** More on runs of polls *)

(** A due poll answered "pending", under the default delays. *)
Lemma pending_answer_step c w :
  mu c = false -> pending c = true ->
  initialDelay c = 500 * Millisecond -> maxDelay c = 10 * Second ->
  0 <= delay c < 10 * Second -> 500 * Millisecond <= delay c ->
  nextRequest c <= clock w (ticks w) ->
  fetchYields "pending" c w ->
  exists c' w',
    exec HandleStatusRequest c w = Ok tt c' w' /\
    mu c' = false /\ initialDelay c' = 500 * Millisecond /\
    maxDelay c' = 10 * Second /\ upstream w' = upstream w /\
    BaseURL c' = BaseURL c /\ urlParses w' = urlParses w /\
    status c' = "pending" /\
    written w' = written w ++ [JsonResult 200 "pending"] /\
    500 * Millisecond <= delay c' < 10 * Second.
Proof.
  intros Hm Hp Hi Hx Hd Hlow Hdue Hy.
  destruct (default_delay_step c w Hm Hp Hi Hx Hd Hdue Hy)
    as (c' & w' & He & Hm' & _ & Hi' & Hx' & _ & HB' & _ & Hu' & Hurl' & _ & Hr).
  pose proof (poll_pending c w Hm Hp Hdue Hy) as He'.
  cbn zeta in He'. rewrite He in He'.
  destruct (_ <=? 0); [discriminate|]. injection He' as Hc Hw.
  exists c', w'. split; [exact He|].
  split; [exact Hm'|]. split; [congruence|]. split; [congruence|].
  split; [exact Hu'|]. split; [exact HB'|]. split; [exact Hurl'|].
  split; [rewrite Hc; reflexivity|].
  split; [rewrite Hw; reflexivity|].
  cbn zeta in Hr. rewrite halved_capped_delay in Hr by lia.
  assert (0 <= delay c < 2 ^ 62) as Hd' by
    (unfold Second, Millisecond, Nanosecond in Hd; lia).
  pose proof (cappedDelay_default (delay c) Hd') as Hb.
  unfold Second, Millisecond, Nanosecond in *. lia.
Qed.

(** One poll under the default delays, whatever the server does. *)
Lemma default_poll_step c w w0 :
  delaysInRange c ->
  upstream w = upstream w0 ->
  (pending c = true -> 500 * Millisecond <= delay c) ->
  (pending c = true -> sentBy w0 (status c)) ->
  exists c' w' r,
    exec HandleStatusRequest c w = Ok tt c' w' /\
    written w' = written w ++ [r] /\ servable w0 r /\
    delaysInRange c' /\ upstream w' = upstream w0 /\
    500 * Millisecond <= delay c' /\
    (pending c' = true -> sentBy w0 (status c')).
Proof.
  intros HJ Hup Hlow Hsent.
  destruct (startSequence_total c w) as (c0 & w0' & Hstart).
  pose proof (started_delaysInRange _ _ _ _ Hstart HJ) as (Hm0 & Hi & Hx & Hd).
  pose proof (startSequence_frame _ _ _ _ Hstart)
    as (_ & _ & _ & _ & _ & _ & Hu0 & _ & _ & _ & _ & _ & Hw0).
  assert (500 * Millisecond <= delay c0 /\ sentBy w0 (status c0))
    as [Hlow0 Hsent0].
  { destruct (pending c) eqn:Hp.
    - rewrite exec_startSequence_active in Hstart by assumption.
      injection Hstart as <- <-. auto.
    - rewrite exec_startSequence_idle in Hstart by assumption.
      injection Hstart as <- <-. cbn. rewrite (proj1 (proj2 HJ)).
      split; [lia|left; reflexivity]. }
  destruct (started_active c w c0 w0' (proj1 HJ) Hstart) as (_ & Hp0 & _ & ->).
  rewrite <- Hw0. rewrite <- Hu0 in Hup.
  destruct (Z.lt_ge_cases (clock w0' (ticks w0')) (nextRequest c0))
    as [Hlt|Hdue].
  { rewrite poll_cache_hit by assumption. do 3 eexists.
    split; [reflexivity|]. cbn. split; [reflexivity|].
    split; [right; eauto|]. unfold delaysInRange. tauto. }
  destruct (fetch_cases c0 w0') as [Hfail|[s Hy]].
  - destruct (poll_failed c0 w0' Hm0 Hp0 Hdue Hfail) as (e & He).
    cbn zeta in He. rewrite He.
    assert (forall v, upstream (afterFetch c0 v) = upstream v) as Hup'.
    { intros v. unfold afterFetch. destruct (urlParses v _); reflexivity. }
    assert (forall v, written (afterFetch c0 v) = written v) as Hwr'.
    { intros v. unfold afterFetch. destruct (urlParses v _); reflexivity. }
    destruct (_ <=? _); do 3 eexists; (split; [reflexivity|]); cbn;
      rewrite Hup', Hwr'; (split; [reflexivity|]).
    + split; [left; reflexivity|]. unfold delaysInRange; cbn.
      repeat split; try tauto; try discriminate.
    + split; [right; eauto|]. unfold delaysInRange; cbn. tauto.
  - destruct (String.eqb_spec s "pending") as [->|Hs].
    + destruct (pending_answer_step c0 w0' Hm0 Hp0 Hi Hx Hd Hlow0 Hdue Hy)
        as (c' & w' & He & Hm' & Hi' & Hx' & Hu' & _ & _ & Hst & Hwr & Hr).
      exists c', w', (JsonResult 200 "pending").
      split; [exact He|]. split; [exact Hwr|].
      split; [right; eexists; split; [reflexivity|left; reflexivity]|].
      split; [unfold delaysInRange; repeat split; try assumption;
              unfold Second, Millisecond, Nanosecond in *; lia|].
      split; [congruence|]. split; [lia|].
      intros _. rewrite Hst. left; reflexivity.
    + rewrite (poll_terminal s c0 w0' Hm0 Hp0 Hdue Hy Hs).
      do 3 eexists. split; [reflexivity|]. cbn. split; [reflexivity|].
      assert (sentBy w0 s) as Hss.
      { right. exists (fetches w0'). rewrite <- Hup. apply Hy. }
      split; [right; eauto|]. unfold delaysInRange; cbn.
      repeat split; try tauto; try discriminate.
Qed.

Lemma default_polls_run n : forall c w w0,
  delaysInRange c ->
  upstream w = upstream w0 ->
  (pending c = true -> 500 * Millisecond <= delay c) ->
  (pending c = true -> sentBy w0 (status c)) ->
  exists cs c' w' rs,
    exec (polls n) c w = Ok cs c' w' /\
    length cs = n /\
    Forall (fun c => 500 * Millisecond <= delay c /\ delaysInRange c) cs /\
    written w' = written w ++ rs /\ length rs = n /\
    Forall (servable w0) rs.
Proof.
  induction n as [|n IH]; intros c w w0 HJ Hup Hlow Hsent.
  - exists [], c, w, []. cbn. rewrite app_nil_r. auto 10.
  - destruct (default_poll_step c w w0 HJ Hup Hlow Hsent)
      as (c1 & w1 & r & He & Hw & Hr & HJ1 & Hup1 & Hlow1 & Hsent1).
    destruct (IH c1 w1 w0 HJ1 Hup1 (fun _ => Hlow1) Hsent1)
      as (cs & c' & w' & rs & Hes & Hlen & Hall & Hws & Hlrs & Hrs).
    exists (c1 :: cs), c', w', (r :: rs).
    rewrite exec_polls_S, He, Hes. cbn.
    split; [reflexivity|]. split; [lia|]. split.
    + constructor; [|exact Hall]. split; [exact Hlow1|exact HJ1].
    + rewrite Hws, Hw, <- app_assoc. cbn.
      split; [reflexivity|]. split; [lia|]. constructor; assumption.
Qed.

(** X6. Whatever the server answers and whenever the polls come, every
    poll of a client built by [NewClient] returns and leaves [delay]
    in [500ms, 10s), so within [0, maxDelay]. *)
Theorem delay_stays_in_range (baseURL : string) (logger : log_Logger)
    (w : World) (n : nat) :
  exists cs c' w',
    exec (polls n) (NewClient baseURL logger) w = Ok cs c' w' /\
    length cs = n /\
    Forall (fun c => 500 * Millisecond <= delay c < 10 * Second /\
                     delay c < maxDelay c) cs.
Proof.
  destruct (default_polls_run n (NewClient baseURL logger) w w)
    as (cs & c' & w' & rs & He & Hlen & Hall & _); try discriminate.
  { unfold delaysInRange; cbn. repeat split; discriminate. }
  { reflexivity. }
  exists cs, c', w'. split; [exact He|]. split; [exact Hlen|].
  eapply Forall_impl; [exact Hall|].
  intros c (Hlow & _ & _ & Hx & Hd). cbn beta. rewrite Hx. lia.
Qed.

(** X7. [n] polls of a client built by [NewClient] get [n] responses, one
    each, whatever the server does: the 500 "Max retries reached", or a
    200 whose status is "pending" or a result the server sent in a 200
    reply.  The empty status the client is built with is never served. *)
Theorem polls_serve_what_server_sent (baseURL : string)
    (logger : log_Logger) (w : World) (n : nat) :
  exists cs c' w' rs,
    exec (polls n) (NewClient baseURL logger) w = Ok cs c' w' /\
    written w' = written w ++ rs /\ length rs = n /\
    Forall (servable w) rs.
Proof.
  destruct (default_polls_run n (NewClient baseURL logger) w w)
    as (cs & c' & w' & rs & He & _ & _ & Hw & Hlen & Hall); try discriminate.
  { unfold delaysInRange; cbn. repeat split; discriminate. }
  { reflexivity. }
  exists cs, c', w', rs. auto.
Qed.

(** X8. Outside the range where doubling is safe [nextDelay] does not
    return: for a delay from 2^62 ns up its double overflows to a
    negative value, for a negative delay from -2^62 ns up the double is
    negative itself, and [rand.Int63n] panics on the half of it,
    whatever the settings are. *)
Theorem nextDelay_panics_on_overflow (c : Client) (w : World)
    (current : Duration) :
  2 ^ 62 <= current < 2 ^ 63 \/ - 2 ^ 62 <= current < 0 ->
  exec (nextDelay current) c w = Panic c w.
Proof.
  intros Hc. rewrite exec_nextDelay. cbn zeta.
  assert (wrap64 (current * 2) < 0) as Hneg.
  { destruct Hc as [Hc|Hc].
    - unfold wrap64.
      replace (current * 2 + 2 ^ 63)
        with ((current * 2 - 2 ^ 63) + 1 * 2 ^ 64) by lia.
      rewrite Z_mod_plus_full, Z.mod_small; lia.
    - rewrite wrap64_small; lia. }
  assert (cappedDelay (initialDelay c) (maxDelay c) current < 2) as Hb.
  { unfold cappedDelay. destruct (Z.eqb_spec current 0); [lia|].
    destruct (Z.gtb_spec (wrap64 (current * 2)) (maxDelay c)); lia. }
  pose proof (quot2_nonpos _ Hb).
  destruct (Z.leb_spec (cappedDelay (initialDelay c) (maxDelay c) current
                          `quot` 2) 0); [reflexivity|lia].
Qed.

(** A run of failed requests up to the ceiling. *)
Lemma failing_run j : forall c w,
  mu c = false -> pending c = true -> status c = "pending" ->
  serverDown w ->
  (forall i, (ticks w <= i)%nat -> nextRequest c <= clock w i) ->
  0 <= attempt c -> maxRetries c < 2 ^ 62 ->
  attempt c + Z.of_nat (S j) = maxRetries c ->
  exists cs c' w',
    exec (polls (S j)) c w = Ok cs c' w' /\
    written w' =
      written w ++ replicate j (JsonResult 200 "pending") ++
      [PlainText 500 "Max retries reached"] /\
    pending c' = false /\ attempt c' = maxRetries c /\
    status c' = "pending".
Proof.
  induction j as [|j IH]; intros c w Hm Hp Hst Hdown Hclk Ha Hmax Hleft.
  - assert (failedFetch c w) as Hfail by (right; apply Hdown).
    destruct (poll_failed c w Hm Hp (Hclk _ (le_n _)) Hfail) as (e & He).
    cbn zeta in He. rewrite wrap64_small in He by lia.
    destruct (Z.leb_spec (maxRetries c) (attempt c + 1)); [|lia].
    rewrite exec_polls_S, He. cbn.
    do 3 eexists. split; [reflexivity|]. cbn.
    unfold afterFetch. destruct (urlParses w _); cbn;
      repeat split; try assumption; lia.
  - assert (failedFetch c w) as Hfail by (right; apply Hdown).
    destruct (poll_failed c w Hm Hp (Hclk _ (le_n _)) Hfail) as (e & He).
    cbn zeta in He. rewrite wrap64_small in He by lia.
    destruct (Z.leb_spec (maxRetries c) (attempt c + 1)); [lia|].
    rewrite exec_polls_S, He.
    match type of He with
    | _ = Ok _ ?c1 ?w1 =>
        destruct (IH c1 w1) as (cs & c' & w' & Hes & Hw & Hp' & Ha' & Hs')
    end; try (cbn; assumption); try (cbn; lia).
    + unfold serverDown, afterFetch. destruct (urlParses w _); cbn; exact Hdown.
    + intros i Hi. cbn in Hi |- *. unfold afterFetch in *.
      destruct (urlParses w _); cbn in *; apply Hclk; lia.
    + rewrite Hes. do 3 eexists. split; [reflexivity|].
      split; [|auto]. rewrite Hw. cbn.
      unfold afterFetch. destruct (urlParses w _); cbn;
        rewrite Hst, <- app_assoc; reflexivity.
Qed.

(** X10. With the server down, a clock that does not go back and
    [maxRetries] at least 1, the polls of a new sequence get the cached
    "pending" [maxRetries - 1] times and then, once, the 500 "Max retries
    reached"; the sequence is over, [attempt] equal to [maxRetries]. *)
Theorem ceiling_after_maxRetries_failures (c : Client) (w : World) :
  mu c = false -> pending c = false ->
  serverDown w -> clockMonotone w ->
  1 <= maxRetries c < 2 ^ 62 ->
  exists cs c' w',
    exec (polls (Z.to_nat (maxRetries c))) c w = Ok cs c' w' /\
    written w' =
      written w ++
      replicate (Z.to_nat (maxRetries c) - 1) (JsonResult 200 "pending") ++
      [PlainText 500 "Max retries reached"] /\
    pending c' = false /\ attempt c' = maxRetries c.
Proof.
  intros Hm Hp Hdown Hmono HR.
  destruct (Z.to_nat (maxRetries c)) as [|j] eqn:Hj; [lia|].
  pose proof (exec_startSequence_idle c w Hp) as Hstart.
  rewrite exec_polls_S, (handler_restart c w _ _ Hm Hstart),
    <- exec_polls_S.
  match type of Hstart with
  | _ = Ok _ ?c0 ?w0 =>
      destruct (failing_run j c0 w0) as (cs & c' & w' & He & Hw & Hp' & Ha' & _)
  end; cbn; try assumption; try reflexivity; try lia.
  - intros i Hi. apply Hmono. lia.
  - exists cs, c', w'. split; [exact He|].
    cbn in Hw, Ha'. rewrite Nat.sub_0_r. auto.
Qed.

(** ** The translation server *)

Ltac sunfold :=
  unfold server.statusHandler, server.randomStatus, server.time_Since,
    server.time_Now, server.rand_Intn, server.Printf, server.Encode,
    server.mu_Lock, server.mu_Unlock, server.gets, server.modify,
    mbind, server.M_bind, mret, server.M_ret in *.

Lemma sat64_below z d :
  - 2 ^ 63 < d <= 2 ^ 63 - 1 -> (d <=? server.sat64 z) = (d <=? z).
Proof.
  intros Hd. unfold server.sat64.
  destruct (Z.leb_spec d z), (Z.leb_spec d (Z.max (- 2 ^ 63)
    (Z.min (2 ^ 63 - 1) z))); try reflexivity; lia.
Qed.

(** X11. [NewServer] never fails and always yields a valid
    configuration: a delay that is not positive becomes 10 seconds, an
    error rate outside [0, 100] becomes 20, valid values are kept.  The
    server starts "pending", its mutex free, its timer at the instant
    read. *)
Theorem NewServer_validates (delaySeconds errorRate : Z) (e : server.Env) :
  let srv := (server.NewServer delaySeconds errorRate e).1.1 in
  (server.NewServer delaySeconds errorRate e).1.2 = None /\
  server.DelaySeconds (server.config srv) =
    (if delaySeconds <=? 0 then 10 else delaySeconds) /\
  server.ErrorRate (server.config srv) =
    (if (0 <=? errorRate) && (errorRate <=? 100) then errorRate else 20) /\
  1 <= server.DelaySeconds (server.config srv) /\
  0 <= server.ErrorRate (server.config srv) <= 100 /\
  server.status srv = "pending" /\ server.mu srv = false /\
  server.startTime srv = server.clock e (S (server.ticks e)).
Proof.
  unfold server.NewServer.
  destruct (Z.leb_spec delaySeconds 0), (Z.ltb_spec errorRate 0),
    (Z.gtb_spec errorRate 100), (Z.leb_spec 0 errorRate),
    (Z.leb_spec errorRate 100); cbn; repeat split; try lia.
Qed.

(** A request handled with the mutex free. *)
Lemma statusHandler_free (srv : server.Server) (e : server.Env) :
  server.mu srv = false ->
  exists srv' e',
    server.statusHandler srv e = Some (tt, srv', e') /\
    recognized (server.status srv') /\
    server.mu srv' = false /\ server.config srv' = server.config srv /\
    server.encodes e' = S (server.encodes e) /\
    server.replies e' =
      (if server.sinkOk e (server.encodes e)
       then server.replies e ++ [server.status srv']
       else server.replies e).
Proof.
  unfold recognized. intros Hm; sunfold; cbn; rewrite Hm; cbn.
  destruct (String.eqb_spec (server.status srv) "pending") as [Hs|Hs]; cbn.
  - rewrite Hs; cbn.
    destruct (_ <=? _); cbn.
    + destruct (_ <? _); cbn;
        destruct (server.sinkOk e (server.encodes e)); cbn;
        do 2 eexists; (split; [reflexivity|]); cbn; auto 10.
    + rewrite Hs. destruct (server.sinkOk e (server.encodes e)); cbn;
        do 2 eexists; (split; [reflexivity|]); cbn; rewrite ?Hs; auto 10.
  - destruct (_ <=? _); cbn.
    + destruct (_ <? _); cbn;
        destruct (server.sinkOk e (server.encodes e)); cbn;
        do 2 eexists; (split; [reflexivity|]); cbn; auto 10.
    + destruct (server.sinkOk e (server.encodes e)); cbn;
        do 2 eexists; (split; [reflexivity|]); cbn; auto 10.
Qed.

(** X12. Whatever state the server is in, a request handled with the
    mutex free gets a status out of "pending", "completed" and "error":
    the handler returns, leaves the mutex free and the configuration
    alone, and encodes the status it leaves in the server, once.  With
    the mutex held it waits. *)
Theorem statusHandler_replies (srv : server.Server) (e : server.Env) :
  (server.mu srv = true -> server.statusHandler srv e = None) /\
  (server.mu srv = false ->
   exists srv' e',
     server.statusHandler srv e = Some (tt, srv', e') /\
     recognized (server.status srv') /\
     server.mu srv' = false /\ server.config srv' = server.config srv /\
     server.encodes e' = S (server.encodes e) /\
     server.replies e' =
       (if server.sinkOk e (server.encodes e)
        then server.replies e ++ [server.status srv']
        else server.replies e)).
Proof.
  split.
  - intros Hm. sunfold; cbn. rewrite Hm. reflexivity.
  - apply statusHandler_free.
Qed.

(** The handler on a server that is "pending", path by path. *)
Lemma statusHandler_pending srv e :
  server.mu srv = false -> server.status srv = "pending" ->
  let threshold :=
    wrap64 (server.DelaySeconds (server.config srv) * Second) in
  let elapsed :=
    server.sat64 (server.clock e (server.ticks e) - server.startTime srv) in
  exists e',
    server.statusHandler srv e =
    Some (tt,
          (if threshold <=? elapsed then
             server.set_status
               (if server.dice e (server.rolls e) `mod` 100
                   <? server.ErrorRate (server.config srv)
                then "error" else "completed") srv
           else srv),
          e') /\
    server.ticks e' = S (server.ticks e) /\
    server.rolls e' =
      (if threshold <=? elapsed then S (server.rolls e) else server.rolls e).
Proof.
  intros Hm Hs. cbn zeta. sunfold; cbn. rewrite Hm; cbn.
  rewrite Hs; cbn.
  destruct (wrap64 _ <=? server.sat64 _); cbn; repeat (rewrite Hs; cbn).
  - destruct (_ <? _); cbn;
      destruct (server.sinkOk e (server.encodes e)); cbn;
      eexists; (split; [destruct srv; cbn in *; subst; reflexivity|]);
      cbn; auto.
  - destruct (server.sinkOk e (server.encodes e)); cbn;
      eexists; (split; [destruct srv; cbn in *; subst; reflexivity|]);
      cbn; auto.
Qed.

(** X13. While fewer than [DelaySeconds] seconds have passed since the
    timer was started, the server stays as it is and keeps "pending";
    the first request that comes at or after that time gets the final
    status, drawn once: "error" when the draw modulo 100 is below
    [ErrorRate], "completed" otherwise.  ([DelaySeconds] up to
    9223372036, so that the seconds fit a [Duration].) *)
Theorem pending_until_delay_elapsed (srv : server.Server) (e : server.Env) :
  server.mu srv = false -> server.status srv = "pending" ->
  1 <= server.DelaySeconds (server.config srv) <= 9223372036 ->
  let now := server.clock e (server.ticks e) in
  let due := server.DelaySeconds (server.config srv) * Second in
  exists srv' e',
    server.statusHandler srv e = Some (tt, srv', e') /\
    (now - server.startTime srv < due ->
     srv' = srv /\ server.rolls e' = server.rolls e) /\
    (due <= now - server.startTime srv ->
     server.startTime srv' = server.startTime srv /\
     server.rolls e' = S (server.rolls e) /\
     server.status srv' =
       (if server.dice e (server.rolls e) `mod` 100
           <? server.ErrorRate (server.config srv)
        then "error" else "completed")).
Proof.
  intros Hm Hs HD. cbn zeta.
  destruct (statusHandler_pending srv e Hm Hs) as (e' & He & _ & Hr).
  cbn zeta in He, Hr.
  assert (wrap64 (server.DelaySeconds (server.config srv) * Second) =
          server.DelaySeconds (server.config srv) * Second) as Hw.
  { apply wrap64_small. unfold Second, Millisecond, Nanosecond. lia. }
  rewrite Hw in He, Hr.
  rewrite sat64_below in He, Hr
    by (unfold Second, Millisecond, Nanosecond; lia).
  do 2 eexists. split; [exact He|].
  destruct (Z.leb_spec (server.DelaySeconds (server.config srv) * Second)
              (server.clock e (server.ticks e) - server.startTime srv)).
  - split; [lia|]. intros _. cbn. auto.
  - split; [auto|lia].
Qed.

(** X14. A request that finds the server with a final status starts a
    new job: the timer is set to the instant read, no status is drawn,
    and unless [DelaySeconds] seconds pass between the two readings of
    the clock in that call the answer is "pending" again; a final
    status is reported once. *)
Theorem final_status_starts_new_job (srv : server.Server) (e : server.Env) :
  server.mu srv = false -> server.status srv <> "pending" ->
  1 <= server.DelaySeconds (server.config srv) <= 9223372036 ->
  let t1 := server.clock e (server.ticks e) in
  let t2 := server.clock e (S (server.ticks e)) in
  t2 - t1 < server.DelaySeconds (server.config srv) * Second ->
  exists srv' e',
    server.statusHandler srv e = Some (tt, srv', e') /\
    server.status srv' = "pending" /\ server.startTime srv' = t1 /\
    server.rolls e' = server.rolls e /\
    server.replies e' =
      (if server.sinkOk e (server.encodes e)
       then server.replies e ++ ["pending"] else server.replies e).
Proof.
  intros Hm Hs HD. cbn zeta. intros Hlt.
  sunfold; cbn. rewrite Hm; cbn.
  destruct (String.eqb_spec (server.status srv) "pending") as [|_];
    [contradiction|]. cbn.
  rewrite wrap64_small by (unfold Second, Millisecond, Nanosecond; lia).
  rewrite sat64_below by (unfold Second, Millisecond, Nanosecond; lia).
  destruct (Z.leb_spec (server.DelaySeconds (server.config srv) * Second)
              (server.clock e (S (server.ticks e))
               - server.clock e (server.ticks e))); [lia|]. cbn.
  destruct (server.sinkOk e (server.encodes e)); cbn;
    do 2 eexists; (split; [reflexivity|]); cbn; auto.
Qed.

(** X15. The error rate at its ends: with [ErrorRate] 0 or less no
    request is ever answered "error", with 100 or more none is ever
    answered "completed", in whatever state the server is. *)
Theorem error_rate_extremes (srv : server.Server) (e : server.Env) :
  server.mu srv = false ->
  exists srv' e',
    server.statusHandler srv e = Some (tt, srv', e') /\
    (server.ErrorRate (server.config srv) <= 0 ->
     server.status srv' <> "error") /\
    (100 <= server.ErrorRate (server.config srv) ->
     server.status srv' <> "completed").
Proof.
  intros Hm. sunfold; cbn. rewrite Hm; cbn.
  pose proof (Z.mod_pos_bound (server.dice e (server.rolls e)) 100
                ltac:(lia)) as Hd.
  destruct (String.eqb_spec (server.status srv) "pending") as [Hs|Hs]; cbn.
  - rewrite Hs; cbn. destruct (_ <=? _); cbn.
    + destruct (Z.ltb_spec (server.dice e (server.rolls e) `mod` 100)
                  (server.ErrorRate (server.config srv))); cbn;
        destruct (server.sinkOk e (server.encodes e)); cbn;
        do 2 eexists; (split; [reflexivity|]); cbn;
        split; intros; try discriminate; lia.
    + rewrite Hs. cbn. destruct (server.sinkOk e (server.encodes e)); cbn;
        do 2 eexists; (split; [reflexivity|]); cbn;
        rewrite Hs; split; intros; discriminate.
  - destruct (_ <=? _); cbn.
    + destruct (Z.ltb_spec (server.dice e (server.rolls e) `mod` 100)
                  (server.ErrorRate (server.config srv))); cbn;
        destruct (server.sinkOk e (server.encodes e)); cbn;
        do 2 eexists; (split; [reflexivity|]); cbn;
        split; intros; try discriminate; lia.
    + destruct (server.sinkOk e (server.encodes e)); cbn;
        do 2 eexists; (split; [reflexivity|]); cbn;
        split; intros; discriminate.
Qed.

(** X16. A delay too long for a [Duration]: from 9223372037 to
    18446744073 seconds the product with [time.Second] overflows to a
    negative value, and a pending server whose timer is not in the
    future hands out the final status at the first request. *)
Theorem overlong_delay_finishes_at_once (srv : server.Server)
    (e : server.Env) :
  server.mu srv = false -> server.status srv = "pending" ->
  9223372037 <= server.DelaySeconds (server.config srv) <= 18446744073 ->
  server.startTime srv <= server.clock e (server.ticks e) ->
  exists srv' e',
    server.statusHandler srv e = Some (tt, srv', e') /\
    (server.status srv' = "completed" \/ server.status srv' = "error").
Proof.
  intros Hm Hs HD Hstart.
  destruct (statusHandler_pending srv e Hm Hs) as (e' & He & _).
  cbn zeta in He.
  assert (wrap64 (server.DelaySeconds (server.config srv) * Second) < 0)
    as Hneg.
  { unfold wrap64, Second, Millisecond, Nanosecond.
    replace (server.DelaySeconds (server.config srv) *
             (1000 * (1000000 * 1)) + 2 ^ 63)
      with ((server.DelaySeconds (server.config srv) * 1000000000
             - 2 ^ 63) + 1 * 2 ^ 64) by lia.
    rewrite Z_mod_plus_full, Z.mod_small; lia. }
  assert (0 <= server.sat64
                 (server.clock e (server.ticks e) - server.startTime srv))
    as Hel by (unfold server.sat64; lia).
  destruct (Z.leb_spec
              (wrap64 (server.DelaySeconds (server.config srv) * Second))
              (server.sat64 (server.clock e (server.ticks e)
                             - server.startTime srv))); [|lia].
  do 2 eexists. split; [exact He|]. cbn.
  destruct (_ <? _); auto.
Qed.

(** ** The client in front of the server *)

Lemma statusHandler_sink srv e srv' e' :
  server.statusHandler srv e = Some (tt, srv', e') ->
  server.sinkOk e' = server.sinkOk e.
Proof.
  sunfold; cbn. destruct (server.mu srv); cbn; [discriminate|].
  repeat (match goal with
          | |- context [if ?b then _ else _] => destruct b eqn:?
          end; cbn);
    intros [= <- <-]; reflexivity.
Qed.

Lemma serverAfter_S i srv e :
  serverAfter (S i) srv e =
  match server.statusHandler srv e with
  | Some (_, srv1, e1) => serverAfter i srv1 e1
  | None => None
  end.
Proof.
  unfold serverAfter. cbn [server.requests]. unfold mbind, server.M_bind.
  destruct (server.statusHandler srv e) as [[[[] srv1] e1]|]; reflexivity.
Qed.

(** The server keeps answering: after any number of requests its mutex
    is free again. *)
Lemma serverAfter_free i : forall srv e,
  server.mu srv = false -> (forall k, server.sinkOk e k = true) ->
  exists srv' e',
    serverAfter i srv e = Some (srv', e') /\
    server.mu srv' = false /\ (forall k, server.sinkOk e' k = true).
Proof.
  induction i as [|i IH]; intros srv e Hm Hsink.
  - exists srv, e. auto.
  - rewrite serverAfter_S.
    destruct (statusHandler_free srv e Hm)
      as (srv1 & e1 & He & _ & Hm1 & _).
    rewrite He. apply IH; [exact Hm1|].
    intros k. rewrite (statusHandler_sink _ _ _ _ He). apply Hsink.
Qed.

Lemma upstreamOf_recognized srv e i :
  server.mu srv = false -> (forall k, server.sinkOk e k = true) ->
  exists s, recognized s /\ upstreamOf srv e i = Reply 200 (Decoded s).
Proof.
  intros Hm Hsink.
  destruct (serverAfter_free i srv e Hm Hsink)
    as (srv' & e' & He & Hm' & Hsink').
  unfold upstreamOf, answerOf. rewrite He.
  destruct (statusHandler_free srv' e' Hm')
    as (srv2 & e2 & He2 & Hrec & _).
  rewrite He2, Hsink'. eauto.
Qed.

(** One poll in front of a healthy server, under the default delays. *)
Lemma healthy_poll_step c w :
  delaysInRange c -> healthy c w ->
  (pending c = true -> 500 * Millisecond <= delay c) ->
  (pending c = true -> recognized (status c)) ->
  exists c' w' s,
    exec HandleStatusRequest c w = Ok tt c' w' /\
    written w' = written w ++ [JsonResult 200 s] /\ recognized s /\
    delaysInRange c' /\ healthy c' w' /\
    500 * Millisecond <= delay c' /\
    (pending c' = true -> recognized (status c')).
Proof.
  intros HJ [Hurl Hup] Hlow Hrec.
  destruct (startSequence_total c w) as (c0 & w0 & Hstart).
  pose proof (started_delaysInRange _ _ _ _ Hstart HJ) as (Hm0 & Hi & Hx & Hd).
  pose proof (startSequence_frame _ _ _ _ Hstart)
    as (_ & _ & HB & _ & _ & _ & Hu0 & _ & Hurl0 & _ & _ & _ & Hw0).
  assert (500 * Millisecond <= delay c0 /\ recognized (status c0))
    as [Hlow0 Hrec0].
  { destruct (pending c) eqn:Hp.
    - rewrite exec_startSequence_active in Hstart by assumption.
      injection Hstart as <- <-. auto.
    - rewrite exec_startSequence_idle in Hstart by assumption.
      injection Hstart as <- <-. cbn. rewrite (proj1 (proj2 HJ)).
      split; [lia|left; reflexivity]. }
  destruct (started_active c w c0 w0 (proj1 HJ) Hstart) as (_ & Hp0 & _ & ->).
  rewrite <- Hw0.
  assert (healthy c0 w0) as Hh0.
  { split; [rewrite HB, Hurl0; exact Hurl|rewrite Hu0; exact Hup]. }
  destruct (Z.lt_ge_cases (clock w0 (ticks w0)) (nextRequest c0))
    as [Hlt|Hdue].
  { rewrite poll_cache_hit by assumption. do 3 eexists.
    split; [reflexivity|]. cbn. split; [reflexivity|].
    split; [exact Hrec0|]. unfold delaysInRange. tauto. }
  destruct Hh0 as [Hurl1 Hup1].
  destruct (Hup1 (fetches w0)) as (s & Hs & Hx0).
  assert (fetchYields s c0 w0) as Hy by (split; assumption).
  destruct (String.eqb_spec s "pending") as [->|Hne].
  - destruct (pending_answer_step c0 w0 Hm0 Hp0 Hi Hx Hd Hlow0 Hdue Hy)
      as (c' & w' & He & Hm' & Hi' & Hx' & Hu' & HB' & Hurl' & Hst & Hwr & Hr).
    exists c', w', "pending".
    split; [exact He|]. split; [exact Hwr|]. split; [exact Hs|].
    split; [unfold delaysInRange; repeat split; try assumption;
            unfold Second, Millisecond, Nanosecond in *; lia|].
    split.
    { split; [rewrite HB', Hurl'; exact Hurl1|rewrite Hu'; exact Hup1]. }
    split; [lia|]. intros _. rewrite Hst. exact Hs.
  - rewrite (poll_terminal s c0 w0 Hm0 Hp0 Hdue Hy Hne).
    do 3 eexists. split; [reflexivity|]. cbn. split; [reflexivity|].
    split; [exact Hs|]. unfold delaysInRange, healthy; cbn.
    repeat split; try tauto; try discriminate.
Qed.

Lemma healthy_polls_run n : forall c w,
  delaysInRange c -> healthy c w ->
  (pending c = true -> 500 * Millisecond <= delay c) ->
  (pending c = true -> recognized (status c)) ->
  exists cs c' w' rs,
    exec (polls n) c w = Ok cs c' w' /\
    written w' = written w ++ rs /\ length rs = n /\
    Forall (fun r => exists s, r = JsonResult 200 s /\ recognized s) rs.
Proof.
  induction n as [|n IH]; intros c w HJ Hh Hlow Hrec.
  - exists [], c, w, []. cbn. rewrite app_nil_r. auto.
  - destruct (healthy_poll_step c w HJ Hh Hlow Hrec)
      as (c1 & w1 & s & He & Hw & Hs & HJ1 & Hh1 & Hlow1 & Hrec1).
    destruct (IH c1 w1 HJ1 Hh1 (fun _ => Hlow1) Hrec1)
      as (cs & c' & w' & rs & Hes & Hws & Hlen & Hall).
    exists (c1 :: cs), c', w', (JsonResult 200 s :: rs).
    rewrite exec_polls_S, He, Hes. split; [reflexivity|].
    rewrite Hws, Hw, <- app_assoc. cbn.
    split; [reflexivity|]. split; [lia|]. constructor; eauto.
Qed.

(** X17. The client of [NewClient] polling the server, when the URL
    parses and the server's answers reach it: whatever state the server
    starts in and whenever the polls and the server's clock readings
    fall, every poll gets a 200 with "pending", "completed" or "error";
    the retry ceiling is never reached and no other string is ever
    served. *)
Theorem client_in_front_of_server (baseURL : string) (logger : log_Logger)
    (w : World) (srv : server.Server) (e : server.Env) (n : nat) :
  urlParses w (baseURL +:+ "/status") = true ->
  server.mu srv = false ->
  (forall k, server.sinkOk e k = true) ->
  exists cs c' w' rs,
    exec (polls n) (NewClient baseURL logger) (against srv e w) =
      Ok cs c' w' /\
    written w' = written w ++ rs /\ length rs = n /\
    Forall (fun r => exists s, r = JsonResult 200 s /\ recognized s) rs.
Proof.
  intros Hurl Hm Hsink.
  apply (healthy_polls_run n (NewClient baseURL logger) (against srv e w)).
  - unfold delaysInRange; cbn. repeat split; discriminate.
  - split; [exact Hurl|]. intros i. cbn.
    apply upstreamOf_recognized; assumption.
  - discriminate.
  - discriminate.
Qed.

(** ** The further properties at concrete inputs *)

Lemma handler_answers_once_witness :
  mu client0 = false /\
  match exec HandleStatusRequest client0 completedWorld with
  | Ok _ c' w' =>
      written w' = written completedWorld ++ [JsonResult 200 (status c')] \/
      (written w' =
         written completedWorld ++ [PlainText 500 "Max retries reached"] /\
       pending c' = false)
  | Panic c' w' => written w' = written completedWorld
  | Deadlock _ _ => False
  end.
Proof.
  split; [reflexivity|].
  exact (handler_answers_once client0 completedWorld eq_refl).
Defined.

Lemma handler_keeps_settings_witness :
  mu tinyClient = false /\
  match exec HandleStatusRequest tinyClient pendingWorld with
  | Ok _ c' _ | Panic c' _ => sameSettings tinyClient c'
  | Deadlock _ _ => False
  end.
Proof.
  split; [reflexivity|].
  exact (handler_keeps_settings tinyClient pendingWorld eq_refl).
Defined.

Lemma handler_locks_and_unlocks_witness :
  mu (set_mu true client0) = true /\
  exec HandleStatusRequest (set_mu true client0) pendingWorld =
    Deadlock (set_mu true client0) pendingWorld /\
  mu client0 = false /\
  match exec HandleStatusRequest client0 pendingWorld with
  | Ok _ c' w' | Panic c' w' =>
      mu c' = false /\
      (fetches pendingWorld <= fetches w' <= S (fetches pendingWorld))%nat
  | Deadlock _ _ => False
  end.
Proof.
  split; [reflexivity|].
  split; [exact (proj1 (handler_locks_and_unlocks (set_mu true client0)
                          pendingWorld) eq_refl)|].
  split; [reflexivity|].
  exact (proj2 (handler_locks_and_unlocks client0 pendingWorld) eq_refl).
Defined.

Lemma spacedClock_monotone (up : nat -> Exchange) (ent : nat -> Z) :
  clockMonotone (exampleWorld spacedClock up ent).
Proof.
  intros i j Hij. cbn. unfold spacedClock, Second, Millisecond, Nanosecond.
  lia.
Defined.

Lemma failed_request_is_retried_witness :
  mu client0 = false /\
  exec startSequence client0 downWorld =
    Ok tt (startedClient client0 downWorld) (startedWorld client0 downWorld) /\
  failedFetch (startedClient client0 downWorld)
    (startedWorld client0 downWorld) /\
  clockMonotone downWorld /\
  exists c1 w1,
    exec HandleStatusRequest client0 downWorld = Ok tt c1 w1 /\
    match exec HandleStatusRequest c1 w1 with
    | Ok _ c2 _ | Panic c2 _ => attempt c2 = wrap64 (attempt c1 + 1)
    | Deadlock _ _ => False
    end.
Proof.
  assert (failedFetch (startedClient client0 downWorld)
            (startedWorld client0 downWorld)) as Hf
    by (right; vm_compute; exact I).
  pose proof (spacedClock_monotone refuses (fun _ => 0)) as Hmono.
  split; [reflexivity|]. split; [closed|]. split; [exact Hf|].
  split; [exact Hmono|].
  apply (failed_request_is_retried client0 downWorld
           (startedClient client0 downWorld) (startedWorld client0 downWorld));
    [reflexivity|closed|closed|exact Hf|closed|exact Hmono].
Defined.

Lemma new_sequence_asks_at_once_witness :
  mu client0 = false /\ pending client0 = false /\
  clock pendingWorld (ticks pendingWorld)
    <= clock pendingWorld (S (ticks pendingWorld)) /\
  match exec HandleStatusRequest client0 pendingWorld with
  | Ok _ c' w' | Panic c' w' =>
      attempt c' = 1 /\
      (urlParses pendingWorld (BaseURL client0 +:+ "/status") = true ->
       fetches w' = S (fetches pendingWorld))
  | Deadlock _ _ => False
  end.
Proof.
  assert (clock pendingWorld (ticks pendingWorld)
          <= clock pendingWorld (S (ticks pendingWorld))) as Hc by closed.
  split; [reflexivity|]. split; [reflexivity|]. split; [exact Hc|].
  exact (new_sequence_asks_at_once client0 pendingWorld eq_refl eq_refl Hc).
Defined.

Lemma nextDelay_panics_on_overflow_witness :
  (2 ^ 62 <= 2 ^ 62 < 2 ^ 63 \/ - 2 ^ 62 <= 2 ^ 62 < 0) /\
  exec (nextDelay (2 ^ 62)) client0 pendingWorld = Panic client0 pendingWorld.
Proof.
  assert (2 ^ 62 <= 2 ^ 62 < 2 ^ 63 \/ - 2 ^ 62 <= 2 ^ 62 < 0) as H
    by (left; closed).
  split; [exact H|].
  exact (nextDelay_panics_on_overflow client0 pendingWorld (2 ^ 62) H).
Defined.

Lemma ceiling_after_maxRetries_failures_witness :
  mu client0 = false /\ pending client0 = false /\
  serverDown downWorld /\ clockMonotone downWorld /\
  1 <= maxRetries client0 < 2 ^ 62 /\
  exists cs c' w',
    exec (polls 20) client0 downWorld = Ok cs c' w' /\
    written w' =
      written downWorld ++
      replicate 19 (JsonResult 200 "pending") ++
      [PlainText 500 "Max retries reached"] /\
    pending c' = false /\ attempt c' = maxRetries client0.
Proof.
  assert (serverDown downWorld) as Hd by (intros i; exact I).
  pose proof (spacedClock_monotone refuses (fun _ => 0)) as Hmono.
  assert (1 <= maxRetries client0 < 2 ^ 62) as HR by closed.
  split; [reflexivity|]. split; [reflexivity|]. split; [exact Hd|].
  split; [exact Hmono|]. split; [exact HR|].
  exact (ceiling_after_maxRetries_failures client0 downWorld eq_refl eq_refl
           Hd Hmono HR).
Defined.

Lemma statusHandler_replies_witness :
  server.mu (server.set_mu true server0) = true /\
  server.statusHandler (server.set_mu true server0) env1 = None /\
  server.mu server0 = false /\
  exists srv' e',
    server.statusHandler server0 env1 = Some (tt, srv', e') /\
    recognized (server.status srv') /\
    server.mu srv' = false /\ server.config srv' = server.config server0 /\
    server.encodes e' = S (server.encodes env1) /\
    server.replies e' =
      (if server.sinkOk env1 (server.encodes env1)
       then server.replies env1 ++ [server.status srv']
       else server.replies env1).
Proof.
  split; [reflexivity|].
  split; [exact (proj1 (statusHandler_replies (server.set_mu true server0)
                          env1) eq_refl)|].
  split; [reflexivity|].
  exact (proj2 (statusHandler_replies server0 env1) eq_refl).
Defined.

Lemma pending_until_delay_elapsed_witness :
  server.mu server0 = false /\ server.status server0 = "pending" /\
  1 <= server.DelaySeconds (server.config server0) <= 9223372036 /\
  server.clock env1 (server.ticks env1) - server.startTime server0
    < server.DelaySeconds (server.config server0) * Second /\
  exists srv' e',
    server.statusHandler server0 env1 = Some (tt, srv', e') /\
    srv' = server0 /\ server.rolls e' = server.rolls env1.
Proof.
  assert (1 <= server.DelaySeconds (server.config server0) <= 9223372036)
    as HD by closed.
  assert (server.clock env1 (server.ticks env1) - server.startTime server0
          < server.DelaySeconds (server.config server0) * Second)
    as Hlt by closed.
  split; [reflexivity|]. split; [reflexivity|]. split; [exact HD|].
  split; [exact Hlt|].
  destruct (pending_until_delay_elapsed server0 env1 eq_refl eq_refl HD)
    as (srv' & e' & He & Hearly & _).
  exists srv', e'. split; [exact He|]. exact (Hearly Hlt).
Defined.

Lemma final_status_starts_new_job_witness :
  server.mu doneServer = false /\ server.status doneServer <> "pending" /\
  1 <= server.DelaySeconds (server.config doneServer) <= 9223372036 /\
  server.clock env1 (S (server.ticks env1))
    - server.clock env1 (server.ticks env1)
    < server.DelaySeconds (server.config doneServer) * Second /\
  exists srv' e',
    server.statusHandler doneServer env1 = Some (tt, srv', e') /\
    server.status srv' = "pending" /\
    server.startTime srv' = server.clock env1 (server.ticks env1) /\
    server.rolls e' = server.rolls env1 /\
    server.replies e' =
      (if server.sinkOk env1 (server.encodes env1)
       then server.replies env1 ++ ["pending"] else server.replies env1).
Proof.
  assert (server.status doneServer <> "pending") as Hs by discriminate.
  assert (1 <= server.DelaySeconds (server.config doneServer) <= 9223372036)
    as HD by closed.
  assert (server.clock env1 (S (server.ticks env1))
            - server.clock env1 (server.ticks env1)
          < server.DelaySeconds (server.config doneServer) * Second)
    as Hlt by closed.
  split; [reflexivity|]. split; [exact Hs|]. split; [exact HD|].
  split; [exact Hlt|].
  exact (final_status_starts_new_job doneServer env1 eq_refl Hs HD Hlt).
Defined.

Lemma error_rate_extremes_witness :
  server.mu reliableServer = false /\
  server.ErrorRate (server.config reliableServer) <= 0 /\
  exists srv' e',
    server.statusHandler reliableServer env1 = Some (tt, srv', e') /\
    server.status srv' <> "error".
Proof.
  assert (server.ErrorRate (server.config reliableServer) <= 0) as Hr
    by closed.
  split; [reflexivity|]. split; [exact Hr|].
  destruct (error_rate_extremes reliableServer env1 eq_refl)
    as (srv' & e' & He & Hlow & _).
  exists srv', e'. split; [exact He|]. exact (Hlow Hr).
Defined.

Lemma overlong_delay_finishes_at_once_witness :
  server.mu overlongServer = false /\
  server.status overlongServer = "pending" /\
  9223372037 <= server.DelaySeconds (server.config overlongServer)
    <= 18446744073 /\
  server.startTime overlongServer <= server.clock env0 (server.ticks env0) /\
  exists srv' e',
    server.statusHandler overlongServer env0 = Some (tt, srv', e') /\
    (server.status srv' = "completed" \/ server.status srv' = "error").
Proof.
  assert (9223372037 <= server.DelaySeconds (server.config overlongServer)
          <= 18446744073) as HD by closed.
  assert (server.startTime overlongServer
          <= server.clock env0 (server.ticks env0)) as Hs by closed.
  split; [reflexivity|]. split; [reflexivity|]. split; [exact HD|].
  split; [exact Hs|].
  exact (overlong_delay_finishes_at_once overlongServer env0 eq_refl eq_refl
           HD Hs).
Defined.

Lemma client_in_front_of_server_witness :
  urlParses pendingWorld ("http://localhost:8080" +:+ "/status") = true /\
  server.mu server0 = false /\
  (forall k, server.sinkOk env1 k = true) /\
  exists cs c' w' rs,
    exec (polls 12) (NewClient "http://localhost:8080" stdLogger)
      (against server0 env1 pendingWorld) = Ok cs c' w' /\
    written w' = written pendingWorld ++ rs /\ length rs = 12%nat /\
    Forall (fun r => exists s, r = JsonResult 200 s /\ recognized s) rs.
Proof.
  assert (forall k, server.sinkOk env1 k = true) as Hk
    by (intros k; reflexivity).
  split; [reflexivity|]. split; [reflexivity|]. split; [exact Hk|].
  exact (client_in_front_of_server "http://localhost:8080" stdLogger
           pendingWorld server0 env1 12 eq_refl eq_refl Hk).
Defined.
